(** * Async compute sample: texture hand-off between the render loop and
      the compute worker

    A shallow embedding of [examples/async_compute/async_compute.cpp]:
    the [TextureQueue] class, the [AsyncCompute] render pass ([Init],
    [BackBufferResizing], [Render], [AsyncThreadProc], the destructor) and
    [main].

    Conventions.
    - A [nvrhi::TextureHandle] is a reference-counted pointer: it is either
      null or refers to one texture object.  Texture objects are identified
      by a natural number.
    - Sequence numbers are [uint64_t] values.  The program only stores them,
      passes them on and compares them with zero, so they are modelled by
      [N] and no wrap-around is ever computed on them here.
    - [std::queue] is a list whose head is the front of the queue.
    - Every call on the device, on a binding cache or on the lifetime
      tracker is recorded in a log, newest call first. *)

From Stdlib Require Import List NArith ZArith Bool Arith Lia Permutation.
Import ListNotations.

Definition Texture := nat.
Definition TextureHandle := option Texture.
Definition uint64 := N.

(** [if (handle)]: a handle converts to [true] when it is not null. *)
Definition non_null (h : TextureHandle) : bool :=
  match h with Some _ => true | None => false end.

(** ** class TextureQueue *)

Module TextureQueue.

(** [std::queue<std::pair<nvrhi::TextureHandle, uint64_t>> m_Queue].  The
    mutex makes each member function one atomic step, which is how the
    functions are used below. *)
Definition t := list (TextureHandle * uint64).

Definition empty : t := [].

(** [Push]: [m_Queue.emplace(std::move(texture), lastUse)]. *)
Definition Push (q : t) (texture : TextureHandle) (lastUse : uint64) : t :=
  q ++ [(texture, lastUse)].

(** What a call of [TryPop] leaves behind: the returned [bool], the queue,
    the two out-parameters, and the handle that was destroyed by
    [m_Queue.pop()].  On success the front element is swapped with
    [outTexture], so the element that [pop] destroys holds whatever the
    caller had in [outTexture] before the call. *)
Record PopResult := mkPop {
  returned : bool;
  queue : t;
  outTexture : TextureHandle;
  outLastUse : uint64;
  destroyed : TextureHandle
}.

Definition TryPop (q : t) (outTexture0 : TextureHandle) (outLastUse0 : uint64)
  : PopResult :=
  match q with
  | [] => mkPop false q outTexture0 outLastUse0 None
  | (texture, lastUse) :: rest => mkPop true rest texture lastUse outTexture0
  end.

(** A sequence of calls on one queue instance. *)
Inductive Op :=
| OpPush (texture : TextureHandle) (lastUse : uint64)
| OpTryPop (outTexture0 : TextureHandle) (outLastUse0 : uint64).

(** Runs the calls in order; collects what every [TryPop] returned. *)
Fixpoint run (q : t) (ops : list Op) : t * list PopResult :=
  match ops with
  | [] => (q, [])
  | OpPush texture lastUse :: ops' => run (Push q texture lastUse) ops'
  | OpTryPop o1 o2 :: ops' =>
      let r := TryPop q o1 o2 in
      let '(q', rs) := run (queue r) ops' in
      (q', r :: rs)
  end.

(** The pairs pushed by a sequence of calls, in call order. *)
Fixpoint pushed (ops : list Op) : list (TextureHandle * uint64) :=
  match ops with
  | [] => []
  | OpPush texture lastUse :: ops' => (texture, lastUse) :: pushed ops'
  | OpTryPop _ _ :: ops' => pushed ops'
  end.

(** The pairs handed out by the successful pops, in call order. *)
Fixpoint popped (rs : list PopResult) : list (TextureHandle * uint64) :=
  match rs with
  | [] => []
  | r :: rs' =>
      if returned r then (outTexture r, outLastUse r) :: popped rs'
      else popped rs'
  end.

End TextureQueue.

(** ** The rendering abstraction layer *)

Inductive CommandQueue := Graphics | Compute.

Inductive BindingCache := m_DrawBindings | m_ComputeBindings.

(** The commands the two command lists record between [open] and [close]. *)
Inductive Command :=
| ClearColorAttachment
| SetGraphicsState (srv : Texture)
| Draw (vertexCount : N)
| SetComputeState (uav : TextureHandle)
| SetPushConstants (value : N)
| Dispatch (groupsX groupsY : N).

(** The calls the program makes on the device, the binding caches and the
    command-list lifetime tracker. *)
Inductive Call :=
| CreateGraphicsPipeline
| GetOrCreateBindingSet (cache : BindingCache) (texture : TextureHandle)
| QueueWaitForCommandList (waitQueue executionQueue : CommandQueue)
    (instance : uint64)
| ExecuteCommandList (queue : CommandQueue) (commands : list Command)
    (instance : uint64)
| RunGarbageCollection
| SleepUntil.

(** Modelled from the spec: the device itself ([nvrhi::IDevice]) is not part
    of the sample.  The spec describes [submit] as returning "an opaque
    monotonically increasing integer", "a monotonically increasing counter per
    queue", where "a value of zero means no prior submission to wait on", and
    [create_texture] as returning a resource handle.  So the device keeps one
    counter per queue, starting at zero, and hands out texture objects in
    creation order. *)
Record Device := mkDevice {
  texturesCreated : nat;
  lastSubmittedGraphics : uint64;
  lastSubmittedCompute : uint64;
  calls : list Call
}.

Definition new_device : Device := mkDevice 0 0%N 0%N [].

Definition lastSubmitted (d : Device) (q : CommandQueue) : uint64 :=
  match q with
  | Graphics => lastSubmittedGraphics d
  | Compute => lastSubmittedCompute d
  end.

Definition record_call (c : Call) (d : Device) : Device :=
  match d with
  | mkDevice created graphics compute log =>
      mkDevice created graphics compute (c :: log)
  end.

(** Modelled from the spec: [create_texture(...) -> ResourceHandle]. *)
Definition createTexture (d : Device) : Device * TextureHandle :=
  match d with
  | mkDevice created graphics compute log =>
      (mkDevice (S created) graphics compute log, Some created)
  end.

(** Modelled from the spec: [submit(command_list, queue_kind) ->
    SequenceNumber], the next value of the queue's counter. *)
Definition executeCommandList (d : Device) (q : CommandQueue)
  (commands : list Command) : Device * uint64 :=
  match d, q with
  | mkDevice created graphics compute log, Graphics =>
      let instance := (graphics + 1)%N in
      (mkDevice created instance compute
         (ExecuteCommandList Graphics commands instance :: log),
       instance)
  | mkDevice created graphics compute log, Compute =>
      let instance := (compute + 1)%N in
      (mkDevice created graphics instance
         (ExecuteCommandList Compute commands instance :: log),
       instance)
  end.

Definition queueWaitForCommandList (d : Device)
  (waitQueue executionQueue : CommandQueue) (instance : uint64) : Device :=
  record_call (QueueWaitForCommandList waitQueue executionQueue instance) d.

(** ** class AsyncCompute *)

(** Whether each of the three [CreateShader] calls of [Init] returned a
    handle that is not null. *)
Record Shaders := mkShaders {
  m_VertexShader : bool;
  m_PixelShader : bool;
  m_ComputeShader : bool
}.

(** Where the render thread is inside [Render].  The locals [newTexture] and
    [newTextureLastUse] live from the successful [TryPop] to the end of the
    [if] block. *)
Inductive RenderPc :=
| RIdle
| RPopped (newTexture : TextureHandle) (newTextureLastUse : uint64)
| RSwapped (newTexture : TextureHandle) (newTextureLastUse : uint64)
| RRecord.

(** The state of [m_ComputeThread]: not started (a default-constructed
    [std::thread]), somewhere inside [AsyncThreadProc], or returned from it.
    The locals [texture] and [textureLastUse] are null and 0 while polling. *)
Inductive WorkerPc :=
| WNotStarted
| WLoopHead
| WPoll
| WAfterPoll (texture : TextureHandle) (textureLastUse : uint64)
| WPush (texture : TextureHandle) (textureLastUse : uint64)
| WSleep
| WExited.

Record AsyncCompute := mkAsyncCompute {
  shaders : Shaders;
  m_GraphicsPipeline : bool;
  m_ComputeThread : WorkerPc;
  m_Terminate : bool;
  m_RenderToComputeQueue : TextureQueue.t;
  m_ComputeToRenderQueue : TextureQueue.t;
  m_CurrentRenderTexture : TextureHandle;
  m_LastRenderTextureUse : uint64;
  counter : N;
  renderPc : RenderPc;
  device : Device
}.

(** The object after its constructor: every handle null, [m_Terminate] false,
    [m_LastRenderTextureUse] 0, the thread not started. *)
Definition constructed : AsyncCompute :=
  mkAsyncCompute (mkShaders false false false) false WNotStarted false
    TextureQueue.empty TextureQueue.empty None 0%N 0%N RIdle new_device.

(** Assignments to one member. *)
Definition set_shaders (v : Shaders) (s : AsyncCompute)
  : AsyncCompute :=
  match s with
  | mkAsyncCompute _ gp w tm r2c c2r cur lu cnt pc d =>
      mkAsyncCompute v gp w tm r2c c2r cur lu cnt pc d
  end.

Definition set_GraphicsPipeline (v : bool) (s : AsyncCompute)
  : AsyncCompute :=
  match s with
  | mkAsyncCompute sh _ w tm r2c c2r cur lu cnt pc d =>
      mkAsyncCompute sh v w tm r2c c2r cur lu cnt pc d
  end.

Definition set_ComputeThread (v : WorkerPc) (s : AsyncCompute)
  : AsyncCompute :=
  match s with
  | mkAsyncCompute sh gp _ tm r2c c2r cur lu cnt pc d =>
      mkAsyncCompute sh gp v tm r2c c2r cur lu cnt pc d
  end.

Definition set_Terminate (v : bool) (s : AsyncCompute)
  : AsyncCompute :=
  match s with
  | mkAsyncCompute sh gp w _ r2c c2r cur lu cnt pc d =>
      mkAsyncCompute sh gp w v r2c c2r cur lu cnt pc d
  end.

Definition set_RenderToComputeQueue (v : TextureQueue.t) (s : AsyncCompute)
  : AsyncCompute :=
  match s with
  | mkAsyncCompute sh gp w tm _ c2r cur lu cnt pc d =>
      mkAsyncCompute sh gp w tm v c2r cur lu cnt pc d
  end.

Definition set_ComputeToRenderQueue (v : TextureQueue.t) (s : AsyncCompute)
  : AsyncCompute :=
  match s with
  | mkAsyncCompute sh gp w tm r2c _ cur lu cnt pc d =>
      mkAsyncCompute sh gp w tm r2c v cur lu cnt pc d
  end.

Definition set_CurrentRenderTexture (v : TextureHandle) (s : AsyncCompute)
  : AsyncCompute :=
  match s with
  | mkAsyncCompute sh gp w tm r2c c2r _ lu cnt pc d =>
      mkAsyncCompute sh gp w tm r2c c2r v lu cnt pc d
  end.

Definition set_LastRenderTextureUse (v : uint64) (s : AsyncCompute)
  : AsyncCompute :=
  match s with
  | mkAsyncCompute sh gp w tm r2c c2r cur _ cnt pc d =>
      mkAsyncCompute sh gp w tm r2c c2r cur v cnt pc d
  end.

Definition set_counter (v : N) (s : AsyncCompute)
  : AsyncCompute :=
  match s with
  | mkAsyncCompute sh gp w tm r2c c2r cur lu _ pc d =>
      mkAsyncCompute sh gp w tm r2c c2r cur lu v pc d
  end.

Definition set_renderPc (v : RenderPc) (s : AsyncCompute)
  : AsyncCompute :=
  match s with
  | mkAsyncCompute sh gp w tm r2c c2r cur lu cnt _ d =>
      mkAsyncCompute sh gp w tm r2c c2r cur lu cnt v d
  end.

Definition set_device (v : Device) (s : AsyncCompute)
  : AsyncCompute :=
  match s with
  | mkAsyncCompute sh gp w tm r2c c2r cur lu cnt pc _ =>
      mkAsyncCompute sh gp w tm r2c c2r cur lu cnt pc v
  end.

Definition call (c : Call) (s : AsyncCompute) : AsyncCompute :=
  set_device (record_call c (device s)) s.

(** *** Init *)

Definition NumTextures : nat := 2.

(** The loop of [Init]: [NumTextures] times
    [m_RenderToComputeQueue.Push(GetDevice()->createTexture(texDesc), 0)]. *)
Fixpoint seed_textures (n : nat) (s : AsyncCompute) : AsyncCompute :=
  match n with
  | O => s
  | S n' =>
      let '(d, texture) := createTexture (device s) in
      seed_textures n'
        (set_RenderToComputeQueue
           (TextureQueue.Push (m_RenderToComputeQueue s) texture 0%N)
           (set_device d s))
  end.

(** [Init], given the outcome of the three shader creations.  The creation
    of the sampler, layouts, compute pipeline, caches, tracker and command
    lists between the shader test and the texture loop touches nothing that
    is modelled here.  The last statement starts the worker thread. *)
Definition Init (created : Shaders) (s : AsyncCompute) : bool * AsyncCompute :=
  let s1 := set_shaders created s in
  if negb (m_VertexShader created) || negb (m_PixelShader created)
     || negb (m_ComputeShader created)
  then (false, s1)
  else (true, set_ComputeThread WLoopHead (seed_textures NumTextures s1)).

(** *** BackBufferResizing *)

Definition BackBufferResizing (s : AsyncCompute) : AsyncCompute :=
  set_GraphicsPipeline false s.

(** *** Render *)

(** The command list of one frame: the clear, then the draw when
    [m_CurrentRenderTexture] is not null. *)
Definition draw_commands (current : TextureHandle) : list Command :=
  ClearColorAttachment ::
  match current with
  | Some texture => [SetGraphicsState texture; Draw 4]
  | None => []
  end.

(** One step of the render thread inside [Render].
    - [RIdle]: creates the graphics pipeline when it is null, then calls
      [m_ComputeToRenderQueue.TryPop(newTexture, newTextureLastUse)] with a
      null [newTexture].  [newTextureLastUse] is not initialised by the
      program and read only after a successful pop; 0 stands for it.
    - [RPopped]: [m_CurrentRenderTexture.Swap(newTexture)].
    - [RSwapped]: the conditional [Push] and the queue wait.
    - [RRecord]: records and submits the draw command list and stores the
      returned sequence number in [m_LastRenderTextureUse]. *)
Definition render_step (s : AsyncCompute) : AsyncCompute :=
  match renderPc s with
  | RIdle =>
      let s1 :=
        if m_GraphicsPipeline s then s
        else set_GraphicsPipeline true (call CreateGraphicsPipeline s) in
      let r := TextureQueue.TryPop (m_ComputeToRenderQueue s1) None 0%N in
      if TextureQueue.returned r
      then set_renderPc
             (RPopped (TextureQueue.outTexture r) (TextureQueue.outLastUse r))
             (set_ComputeToRenderQueue (TextureQueue.queue r) s1)
      else set_renderPc RRecord s1
  | RPopped newTexture newTextureLastUse =>
      set_renderPc (RSwapped (m_CurrentRenderTexture s) newTextureLastUse)
        (set_CurrentRenderTexture newTexture s)
  | RSwapped newTexture newTextureLastUse =>
      let s1 :=
        if non_null newTexture
        then set_RenderToComputeQueue
               (TextureQueue.Push (m_RenderToComputeQueue s) newTexture
                  (m_LastRenderTextureUse s)) s
        else s in
      set_renderPc RRecord
        (set_device
           (queueWaitForCommandList (device s1) Graphics Compute
              newTextureLastUse) s1)
  | RRecord =>
      let s1 :=
        match m_CurrentRenderTexture s with
        | Some texture =>
            call (GetOrCreateBindingSet m_DrawBindings (Some texture)) s
        | None => s
        end in
      let '(d, instance) :=
        executeCommandList (device s1) Graphics
          (draw_commands (m_CurrentRenderTexture s)) in
      set_renderPc RIdle (set_LastRenderTextureUse instance (set_device d s1))
  end.

(** The steps of the render thread that are left up to the end of the frame;
    three are enough from any place inside [Render]. *)
Fixpoint run_frame (fuel : nat) (s : AsyncCompute) : AsyncCompute :=
  match renderPc s with
  | RIdle => s
  | _ =>
      match fuel with
      | O => s
      | S fuel' => run_frame fuel' (render_step s)
      end
  end.

Definition finish_frame (s : AsyncCompute) : AsyncCompute := run_frame 3 s.

(** One call of [Render] when no other thread runs in between. *)
Definition Render (s : AsyncCompute) : AsyncCompute :=
  finish_frame (render_step s).

(** *** AsyncThreadProc *)

Definition compute_commands (texture : TextureHandle) (counter : N)
  : list Command :=
  [SetComputeState texture; SetPushConstants counter; Dispatch 64 64].

(** One step of the worker thread.
    - [WLoopHead]: the test of the outer [while], then the garbage
      collection.
    - [WPoll]: one evaluation of the condition of the inner [while]; the
      [&&] does not call [TryPop] when [m_Terminate] is set.
    - [WAfterPoll]: [if (m_Terminate) break;], then the recording, the
      optional queue wait and the submission.  On [break] the local
      [texture] goes out of scope.
    - [WPush]: [m_ComputeToRenderQueue.Push(std::move(texture), textureLastUse)].
    - [WSleep]: [counter++] on a [uint32_t] and the sleep. *)
Definition worker_step (s : AsyncCompute) : AsyncCompute :=
  match m_ComputeThread s with
  | WNotStarted => s
  | WLoopHead =>
      if m_Terminate s then set_ComputeThread WExited s
      else set_ComputeThread WPoll (call RunGarbageCollection s)
  | WPoll =>
      if m_Terminate s then set_ComputeThread (WAfterPoll None 0%N) s
      else
        let r := TextureQueue.TryPop (m_RenderToComputeQueue s) None 0%N in
        if TextureQueue.returned r
        then set_ComputeThread
               (WAfterPoll (TextureQueue.outTexture r)
                  (TextureQueue.outLastUse r))
               (set_RenderToComputeQueue (TextureQueue.queue r) s)
        else s
  | WAfterPoll texture textureLastUse =>
      if m_Terminate s then set_ComputeThread WExited s
      else
        let s1 := call (GetOrCreateBindingSet m_ComputeBindings texture) s in
        let s2 :=
          if (0 <? textureLastUse)%N
          then set_device
                 (queueWaitForCommandList (device s1) Compute Graphics
                    textureLastUse) s1
          else s1 in
        let '(d, instance) :=
          executeCommandList (device s2) Compute
            (compute_commands texture (counter s)) in
        set_ComputeThread (WPush texture instance) (set_device d s2)
  | WPush texture textureLastUse =>
      set_ComputeThread WSleep
        (set_ComputeToRenderQueue
           (TextureQueue.Push (m_ComputeToRenderQueue s) texture
              textureLastUse) s)
  | WSleep =>
      set_ComputeThread WLoopHead
        (set_counter ((counter s + 1) mod 2 ^ 32)%N (call SleepUntil s))
  | WExited => s
  end.

(** *** The two threads together *)

(** What happens next while the message loop runs: a step of the render
    thread, a step of the worker, or a resize of the back buffer, which the
    device manager reports between two frames. *)
Inductive Action := StepRender | StepWorker | Resize.

Definition step (a : Action) (s : AsyncCompute) : AsyncCompute :=
  match a with
  | StepRender => render_step s
  | StepWorker => worker_step s
  | Resize =>
      match renderPc s with
      | RIdle => BackBufferResizing s
      | _ => s
      end
  end.

Fixpoint run (schedule : list Action) (s : AsyncCompute) : AsyncCompute :=
  match schedule with
  | [] => s
  | a :: schedule' => run schedule' (step a s)
  end.

(** The object after a successful [Init]. *)
Definition started : AsyncCompute :=
  snd (Init (mkShaders true true true) constructed).

(** *** The destructor *)

(** [m_ComputeThread.join()].  A thread that was never started is not
    joinable and [join] throws [std::system_error]; otherwise the caller is
    blocked while the worker runs to the end of [AsyncThreadProc]. *)
Inductive JoinResult :=
| Joined (s : AsyncCompute)
| NotJoinable
| StillRunning.

Fixpoint join (fuel : nat) (s : AsyncCompute) : JoinResult :=
  match m_ComputeThread s with
  | WNotStarted => NotJoinable
  | WExited => Joined s
  | _ =>
      match fuel with
      | O => StillRunning
      | S fuel' => join fuel' (worker_step s)
      end
  end.

(** The members are destroyed after the body of the destructor: the queues
    and [m_CurrentRenderTexture] give up their handles. *)
Definition release_members (s : AsyncCompute) : AsyncCompute :=
  set_CurrentRenderTexture None
    (set_ComputeToRenderQueue TextureQueue.empty
       (set_RenderToComputeQueue TextureQueue.empty
          (set_GraphicsPipeline false s))).

Inductive DestructorResult :=
| Destroyed (s : AsyncCompute)
| StdTerminate
| Blocked.

(** [~AsyncCompute]: [m_Terminate = true; m_ComputeThread.join();].  An
    exception that leaves a destructor ends the process through
    [std::terminate]. *)
Definition destructor (fuel : nat) (s : AsyncCompute) : DestructorResult :=
  match join fuel (set_Terminate true s) with
  | Joined s' => Destroyed (release_members s')
  | NotJoinable => StdTerminate
  | StillRunning => Blocked
  end.

(** *** main *)

Inductive MainCall :=
| LogFatal
| AddRenderPassToBack
| RunMessageLoop
| RemoveRenderPass
| Shutdown
| DeleteDeviceManager.

Inductive Outcome :=
| Return (status : Z)
| Terminated
| Hangs.

(** [main], given whether [CreateWindowDeviceAndSwapChain] succeeded, the
    outcome of the shader creations, and what the two threads do while the
    message loop runs.  The message loop returns between two frames.  The
    result is the list of calls on the device manager and the log, oldest
    first, and how the process ends. *)
Definition main (deviceCreated : bool) (created : Shaders)
  (schedule : list Action) (fuel : nat) : list MainCall * Outcome :=
  if negb deviceCreated then ([LogFatal], Return 1)
  else
    let '(ok, example) := Init created constructed in
    let '(made, atExit) :=
      if ok
      then ([AddRenderPassToBack; RunMessageLoop; RemoveRenderPass],
            finish_frame (run schedule example))
      else ([], example) in
    match destructor fuel atExit with
    | Destroyed _ => (made ++ [Shutdown; DeleteDeviceManager], Return 0)
    | StdTerminate => (made, Terminated)
    | Blocked => (made, Hangs)
    end.

(** The status the host environment receives.  [std::terminate] calls
    [abort], which reports unsuccessful termination; the value is left to the
    platform (134 from a POSIX shell, 3 from the Windows runtime) and is the
    parameter [abort_status].  A process that hangs reports nothing. *)
Definition exit_status (abort_status : Z) (o : Outcome) : option Z :=
  match o with
  | Return status => Some status
  | Terminated => Some abort_status
  | Hangs => None
  end.

(** ** Observations on a state *)

Definition handle_textures (h : TextureHandle) : list Texture :=
  match h with Some texture => [texture] | None => [] end.

Definition queue_textures (q : TextureQueue.t) : list Texture :=
  flat_map (fun p => handle_textures (fst p)) q.

(** The handle in the worker's local [texture]. *)
Definition worker_texture (w : WorkerPc) : TextureHandle :=
  match w with
  | WAfterPoll texture _ | WPush texture _ => texture
  | _ => None
  end.

(** The handle in the render loop's local [newTexture]. *)
Definition render_newTexture (r : RenderPc) : TextureHandle :=
  match r with
  | RPopped newTexture _ | RSwapped newTexture _ => newTexture
  | _ => None
  end.

(** Every texture some handle of the program refers to. *)
Definition held_textures (s : AsyncCompute) : list Texture :=
  queue_textures (m_RenderToComputeQueue s)
  ++ queue_textures (m_ComputeToRenderQueue s)
  ++ handle_textures (worker_texture (m_ComputeThread s))
  ++ handle_textures (m_CurrentRenderTexture s)
  ++ handle_textures (render_newTexture (renderPc s)).


(** The textures of the pool: the ones [Init] created. *)
Definition pool : list Texture := seq 0 NumTextures.

(** The most recent submission to the graphics queue in a call log. *)
Fixpoint last_graphics_submission (log : list Call)
  : option (list Command * uint64) :=
  match log with
  | [] => None
  | ExecuteCommandList Graphics commands instance :: _ =>
      Some (commands, instance)
  | _ :: log' => last_graphics_submission log'
  end.

(** The texture a command list samples in a draw, if it draws. *)
Definition drawn_texture (commands : list Command) : TextureHandle :=
  match commands with
  | [ClearColorAttachment; SetGraphicsState texture; Draw _] => Some texture
  | _ => None
  end.

(** The calls made between an older log and a newer one are those in front
    of the older one. *)
Definition calls_since (older newer : list Call) : list Call :=
  firstn (length newer - length older) newer.

(** The texture the previous frame drew, where the render loop has it at
    this point of [Render]: in [m_CurrentRenderTexture] up to the swap, in
    [newTexture] after it. *)
Definition previous_display (s : AsyncCompute) : TextureHandle :=
  match renderPc s with
  | RIdle | RPopped _ _ => m_CurrentRenderTexture s
  | RSwapped newTexture _ => newTexture
  | RRecord => None
  end.

(** [m_LastRenderTextureUse] is the sequence number of the most recent
    graphics submission, and that submission drew the previous display
    texture. *)
Definition last_use_recorded (s : AsyncCompute) : Prop :=
  forall texture, previous_display s = Some texture ->
    exists commands,
      last_graphics_submission (calls (device s)) =
        Some (commands, m_LastRenderTextureUse s)
      /\ drawn_texture commands = Some texture.

Definition handles_non_null (q : TextureQueue.t) : Prop :=
  Forall (fun p => fst p <> None) q.

Definition sequence_numbers_nonzero (q : TextureQueue.t) : Prop :=
  Forall (fun p => snd p <> 0%N) q.

(** While the message loop runs: the flag is not set, the thread is started
    and has not returned, and no handle in a queue or in a local that was
    filled by a pop is null. *)
Definition running (s : AsyncCompute) : Prop :=
  m_Terminate s = false
  /\ handles_non_null (m_RenderToComputeQueue s)
  /\ handles_non_null (m_ComputeToRenderQueue s)
  /\ match m_ComputeThread s with
     | WAfterPoll texture _ | WPush texture _ => texture <> None
     | WNotStarted | WExited => False
     | _ => True
     end
  /\ match renderPc s with
     | RPopped newTexture _ => newTexture <> None
     | _ => True
     end.

(** Every pair in the compute-to-render queue, and the pair the worker is
    about to push, carries a sequence number that is not zero. *)
Definition compute_tagged (s : AsyncCompute) : Prop :=
  sequence_numbers_nonzero (m_ComputeToRenderQueue s)
  /\ match m_ComputeThread s with
     | WPush _ textureLastUse => textureLastUse <> 0%N
     | _ => True
     end.

(** With the flag set, the places of [AsyncThreadProc] from which the worker
    reaches the end without another submission or push. *)
Definition stopping (s : AsyncCompute) : Prop :=
  m_Terminate s = true
  /\ match m_ComputeThread s with
     | WLoopHead | WPoll | WAfterPoll _ _ | WExited => True
     | _ => False
     end.

(** How many steps of the worker are left before it returns, once the flag
    is set. *)
Definition steps_to_exit (w : WorkerPc) : nat :=
  match w with
  | WNotStarted => 0
  | WExited => 0
  | WLoopHead => 1
  | WAfterPoll _ _ => 1
  | WPoll => 2
  | WSleep => 2
  | WPush _ _ => 3
  end.

Definition worker_steps (schedule : list Action) : nat :=
  length (filter (fun a => match a with StepWorker => true | _ => false end)
            schedule).

(** How often a texture occurs in a list of textures. *)
Definition occ (l : list Texture) (x : Texture) : nat :=
  count_occ Nat.eq_dec l x.

(** The pipeline is created by the frame that finds it null. *)
Definition pipeline_calls (s : AsyncCompute) : list Call :=
  if m_GraphicsPipeline s then [] else [CreateGraphicsPipeline].

(** The submissions to the compute queue in a call log. *)
Definition compute_submissions (log : list Call) : list Call :=
  filter (fun c => match c with
                   | ExecuteCommandList Compute _ _ => true
                   | _ => false
                   end) log.

(** ** Observations on the call log *)

(** The texture a compute command list writes. *)
Definition written_texture (commands : list Command) : TextureHandle :=
  match commands with
  | SetComputeState uav :: _ => uav
  | _ => None
  end.

(** The texture a call writes, for a submission to the compute queue, and the
    texture a call samples, for a submission to the graphics queue. *)
Definition writes (c : Call) : TextureHandle :=
  match c with
  | ExecuteCommandList Compute commands _ => written_texture commands
  | _ => None
  end.

Definition draws (c : Call) : TextureHandle :=
  match c with
  | ExecuteCommandList Graphics commands _ => drawn_texture commands
  | _ => None
  end.

Definition instance_of (c : Call) : uint64 :=
  match c with
  | ExecuteCommandList _ _ instance => instance
  | _ => 0%N
  end.

Definition refers_to (h : TextureHandle) (t : Texture) : bool :=
  match h with
  | Some t' => Nat.eqb t' t
  | None => false
  end.

(** The sequence number of the most recent compute submission that writes
    texture [t], and of the most recent graphics submission that draws it. *)
Fixpoint last_write (log : list Call) (t : Texture) : option uint64 :=
  match log with
  | [] => None
  | c :: older =>
      if refers_to (writes c) t then Some (instance_of c)
      else last_write older t
  end.

Fixpoint last_draw (log : list Call) (t : Texture) : option uint64 :=
  match log with
  | [] => None
  | c :: older =>
      if refers_to (draws c) t then Some (instance_of c)
      else last_draw older t
  end.

(** Whether the log holds a wait of the graphics queue for the compute queue,
    or of the compute queue for the graphics queue, at sequence number [n]. *)
Definition graphics_waited (log : list Call) (n : uint64) : bool :=
  existsb (fun c => match c with
                    | QueueWaitForCommandList Graphics Compute i => (i =? n)%N
                    | _ => false
                    end) log.

Definition compute_waited (log : list Call) (n : uint64) : bool :=
  existsb (fun c => match c with
                    | QueueWaitForCommandList Compute Graphics i => (i =? n)%N
                    | _ => false
                    end) log.

(** Every graphics submission that draws a texture comes after a compute
    submission that wrote it and after a wait of the graphics queue for the
    most recent such submission. *)
Fixpoint reads_after_writes (log : list Call) : bool :=
  match log with
  | [] => true
  | c :: older =>
      match draws c with
      | Some t =>
          match last_write older t with
          | Some n => graphics_waited older n
          | None => false
          end
      | None => true
      end && reads_after_writes older
  end.

(** Every compute submission that writes a texture drawn before comes after
    a wait of the compute queue for the most recent graphics submission that
    drew it. *)
Fixpoint writes_after_reads (log : list Call) : bool :=
  match log with
  | [] => true
  | c :: older =>
      match writes c with
      | Some t =>
          match last_draw older t with
          | Some n => compute_waited older n
          | None => true
          end
      | None => true
      end && writes_after_reads older
  end.

(** The values the compute submissions of a log were given as push
    constants, newest first. *)
Fixpoint push_constants (log : list Call) : list N :=
  match log with
  | [] => []
  | ExecuteCommandList Compute [_; SetPushConstants value; _] _ :: older =>
      value :: push_constants older
  | _ :: older => push_constants older
  end.

(** The first [n] values of a [uint32_t] that starts at 0 and is incremented
    once per value. *)
Definition counter_values (n : nat) : list N :=
  map (fun k => (N.of_nat k mod 2 ^ 32)%N) (seq 0 n).

(** How many waits of the graphics queue for the compute queue, and how many
    pipeline creations, a log holds. *)
Definition graphics_waits (log : list Call) : nat :=
  length (filter (fun c => match c with
                           | QueueWaitForCommandList Graphics Compute _ => true
                           | _ => false
                           end) log).

Definition pipeline_creations (log : list Call) : nat :=
  length (filter (fun c => match c with
                           | CreateGraphicsPipeline => true
                           | _ => false
                           end) log).

Definition resizes (schedule : list Action) : nat :=
  length (filter (fun a => match a with Resize => true | _ => false end)
            schedule).

(** ** Observations at the release of the members *)




(** ** Invariants of the hand-off *)

(** The sequence number [n] that travels with handle [h] is the one of the
    most recent compute submission that wrote the texture. *)
Definition write_tag (log : list Call) (h : TextureHandle) (n : uint64)
  : Prop :=
  forall t, h = Some t -> last_write log t = Some n.

(** The sequence number [n] that travels with handle [h] is 0 when the
    texture was never drawn, and otherwise the one of the most recent
    graphics submission that drew it. *)
Definition draw_tag (log : list Call) (h : TextureHandle) (n : uint64)
  : Prop :=
  forall t, h = Some t ->
    (last_draw log t = None /\ n = 0%N)
    \/ (last_draw log t = Some n /\ n <> 0%N).

(** The graphics queue has been told to wait for the most recent write of the
    texture. *)
Definition ready_to_draw (log : list Call) (h : TextureHandle) : Prop :=
  forall t, h = Some t ->
    exists n, last_write log t = Some n /\ graphics_waited log n = true.

(** The most recent graphics submission that drew the texture has sequence
    number [n]. *)
Definition drawn_last (log : list Call) (h : TextureHandle) (n : uint64)
  : Prop :=
  forall t, h = Some t -> last_draw log t = Some n /\ n <> 0%N.

(** ** Counting *)

(** 1 while the worker has submitted a command list in this iteration and
    has not yet incremented [counter]. *)
Definition submitted_not_counted (w : WorkerPc) : nat :=
  match w with
  | WPush _ _ | WSleep => 1
  | _ => 0
  end.

(** 1 while the graphics pipeline is null. *)
Definition pipeline_missing (s : AsyncCompute) : nat :=
  if m_GraphicsPipeline s then 0 else 1.


(** The push constants of the compute submissions are the successive values
    of [counter], and [counter] is the number of iterations completed. *)
Definition dispatch_counted (s : AsyncCompute) : Prop :=
  let values := push_constants (calls (device s)) in
  rev values = counter_values (length values)
  /\ length values = length (compute_submissions (calls (device s)))
  /\ submitted_not_counted (m_ComputeThread s) <= length values
  /\ counter s =
       (N.of_nat (length values - submitted_not_counted (m_ComputeThread s))
        mod 2 ^ 32)%N.

(** Inside a frame the graphics pipeline is not null. *)
Definition pipeline_ready (s : AsyncCompute) : Prop :=
  renderPc s <> RIdle -> m_GraphicsPipeline s = true.

(** ** Call sequences on a TextureQueue *)

Definition pushes (pairs : list (TextureHandle * uint64))
  : list TextureQueue.Op :=
  map (fun p => TextureQueue.OpPush (fst p) (snd p)) pairs.

Definition pops (outs : list (TextureHandle * uint64))
  : list TextureQueue.Op :=
  map (fun o => TextureQueue.OpTryPop (fst o) (snd o)) outs.

(** The textures of the handles a call sequence hands to the queue: the
    pushed ones and the ones in the [outTexture] arguments. *)
Fixpoint given_textures (ops : list TextureQueue.Op) : list Texture :=
  match ops with
  | [] => []
  | TextureQueue.OpPush texture _ :: ops' =>
      handle_textures texture ++ given_textures ops'
  | TextureQueue.OpTryPop outTexture0 _ :: ops' =>
      handle_textures outTexture0 ++ given_textures ops'
  end.

(** The [outTexture] arguments of the [TryPop] calls of a sequence, in call
    order. *)
Fixpoint out_arguments (ops : list TextureQueue.Op) : list TextureHandle :=
  match ops with
  | [] => []
  | TextureQueue.OpPush _ _ :: ops' => out_arguments ops'
  | TextureQueue.OpTryPop outTexture0 _ :: ops' =>
      outTexture0 :: out_arguments ops'
  end.

(** The textures of the handles the calls leave with the caller or destroy. *)
Definition returned_textures (rs : list TextureQueue.PopResult)
  : list Texture :=
  flat_map (fun r => handle_textures (TextureQueue.outTexture r)
                     ++ handle_textures (TextureQueue.destroyed r)) rs.

Definition failed_pops (rs : list TextureQueue.PopResult) : nat :=
  length (filter (fun r => negb (TextureQueue.returned r)) rs).

(** * The two threads, one call per step *)

(** [render_step] and [worker_step] group what a thread does between two
    operations on a queue, which is what the contents of the members and the
    queues depend on.  The order in which the calls of both threads reach
    the device depends on more: the worker can run between the [Push] and the
    queue wait of [Render], and between [executeCommandList] and the
    assignment of its result.  Here every step makes at most one call on the
    device, a binding cache or the tracker, or one operation on a queue, or
    one assignment to a member. *)

Module PerCall.

(** Where the render thread is inside [Render]:
    - [RIdle]: between two frames, before the test of the pipeline;
    - [RPop]: before [TryPop];
    - [RPopped]: before [m_CurrentRenderTexture.Swap(newTexture)];
    - [RSwapped]: before the conditional [Push];
    - [RWait]: before [queueWaitForCommandList];
    - [RBind]: before the binding set of the draw;
    - [RExecute]: before [executeCommandList];
    - [RStore]: before the assignment of its result to
      [m_LastRenderTextureUse]. *)
Inductive RenderPc :=
| RIdle
| RPop
| RPopped (newTexture : TextureHandle) (newTextureLastUse : uint64)
| RSwapped (newTexture : TextureHandle) (newTextureLastUse : uint64)
| RWait (newTextureLastUse : uint64)
| RBind
| RExecute
| RStore (instance : uint64).

(** Where the worker is inside [AsyncThreadProc]:
    - [WLoopHead]: before the test of the outer [while];
    - [WCollect]: before [runGarbageCollection];
    - [WPoll]: before one evaluation of the condition of the inner [while];
    - [WAfterPoll]: before [if (m_Terminate) break;];
    - [WBind]: before the binding set of the dispatch;
    - [WWait]: before the test [textureLastUse > 0] and its queue wait;
    - [WExecute]: before [executeCommandList];
    - [WPush]: before the [Push];
    - [WSleep]: before [counter++] and the sleep. *)
Inductive WorkerPc :=
| WNotStarted
| WLoopHead
| WCollect
| WPoll
| WAfterPoll (texture : TextureHandle) (textureLastUse : uint64)
| WBind (texture : TextureHandle) (textureLastUse : uint64)
| WWait (texture : TextureHandle) (textureLastUse : uint64)
| WExecute (texture : TextureHandle) (textureLastUse : uint64)
| WPush (texture : TextureHandle) (textureLastUse : uint64)
| WSleep
| WExited.

(** The members of [AsyncCompute] that the two loops use, with the places of
    the two threads. *)
Record State := mkState {
  m_GraphicsPipeline : bool;
  m_ComputeThread : WorkerPc;
  m_Terminate : bool;
  m_RenderToComputeQueue : TextureQueue.t;
  m_ComputeToRenderQueue : TextureQueue.t;
  m_CurrentRenderTexture : TextureHandle;
  m_LastRenderTextureUse : uint64;
  counter : N;
  renderPc : RenderPc;
  device : Device
}.

(** One step of the render thread inside [Render]. *)
Definition render_step (s : State) : State :=
  match s with
  | mkState gp w tm r2c c2r cur lu cnt pc d =>
      match pc with
      | RIdle =>
          if gp then mkState gp w tm r2c c2r cur lu cnt RPop d
          else mkState true w tm r2c c2r cur lu cnt RPop
                 (record_call CreateGraphicsPipeline d)
      | RPop =>
          let r := TextureQueue.TryPop c2r None 0%N in
          if TextureQueue.returned r
          then mkState gp w tm r2c (TextureQueue.queue r) cur lu cnt
                 (RPopped (TextureQueue.outTexture r)
                    (TextureQueue.outLastUse r)) d
          else mkState gp w tm r2c c2r cur lu cnt RBind d
      | RPopped newTexture newTextureLastUse =>
          mkState gp w tm r2c c2r newTexture lu cnt
            (RSwapped cur newTextureLastUse) d
      | RSwapped newTexture newTextureLastUse =>
          mkState gp w tm
            (if non_null newTexture
             then TextureQueue.Push r2c newTexture lu
             else r2c)
            c2r cur lu cnt (RWait newTextureLastUse) d
      | RWait newTextureLastUse =>
          mkState gp w tm r2c c2r cur lu cnt RBind
            (queueWaitForCommandList d Graphics Compute newTextureLastUse)
      | RBind =>
          mkState gp w tm r2c c2r cur lu cnt RExecute
            match cur with
            | Some texture =>
                record_call
                  (GetOrCreateBindingSet m_DrawBindings (Some texture)) d
            | None => d
            end
      | RExecute =>
          let '(d', instance) :=
            executeCommandList d Graphics (draw_commands cur) in
          mkState gp w tm r2c c2r cur lu cnt (RStore instance) d'
      | RStore instance =>
          mkState gp w tm r2c c2r cur instance cnt RIdle d
      end
  end.

(** One step of the worker inside [AsyncThreadProc]. *)
Definition worker_step (s : State) : State :=
  match s with
  | mkState gp w tm r2c c2r cur lu cnt pc d =>
      match w with
      | WNotStarted => s
      | WLoopHead =>
          mkState gp (if tm then WExited else WCollect) tm r2c c2r cur lu cnt
            pc d
      | WCollect =>
          mkState gp WPoll tm r2c c2r cur lu cnt pc
            (record_call RunGarbageCollection d)
      | WPoll =>
          if tm then mkState gp (WAfterPoll None 0%N) tm r2c c2r cur lu cnt pc d
          else
            let r := TextureQueue.TryPop r2c None 0%N in
            if TextureQueue.returned r
            then mkState gp
                   (WAfterPoll (TextureQueue.outTexture r)
                      (TextureQueue.outLastUse r))
                   tm (TextureQueue.queue r) c2r cur lu cnt pc d
            else s
      | WAfterPoll texture textureLastUse =>
          mkState gp
            (if tm then WExited else WBind texture textureLastUse)
            tm r2c c2r cur lu cnt pc d
      | WBind texture textureLastUse =>
          mkState gp (WWait texture textureLastUse) tm r2c c2r cur lu cnt pc
            (record_call (GetOrCreateBindingSet m_ComputeBindings texture) d)
      | WWait texture textureLastUse =>
          mkState gp (WExecute texture textureLastUse) tm r2c c2r cur lu cnt
            pc
            (if (0 <? textureLastUse)%N
             then queueWaitForCommandList d Compute Graphics textureLastUse
             else d)
      | WExecute texture textureLastUse =>
          let '(d', instance) :=
            executeCommandList d Compute (compute_commands texture cnt) in
          mkState gp (WPush texture instance) tm r2c c2r cur lu cnt pc d'
      | WPush texture textureLastUse =>
          mkState gp WSleep tm r2c
            (TextureQueue.Push c2r texture textureLastUse) cur lu cnt pc d
      | WSleep =>
          mkState gp WLoopHead tm r2c c2r cur lu
            ((cnt + 1) mod 2 ^ 32)%N pc (record_call SleepUntil d)
      | WExited => s
      end
  end.

(** [BackBufferResizing], reported between two frames. *)
Definition resize (s : State) : State :=
  match s with
  | mkState gp w tm r2c c2r cur lu cnt pc d =>
      match pc with
      | RIdle => mkState false w tm r2c c2r cur lu cnt pc d
      | _ => s
      end
  end.

Definition step (a : Action) (s : State) : State :=
  match a with
  | StepRender => render_step s
  | StepWorker => worker_step s
  | Resize => resize s
  end.

Fixpoint run (schedule : list Action) (s : State) : State :=
  match schedule with
  | [] => s
  | a :: schedule' => run schedule' (step a s)
  end.

(** The handle in the worker's local [texture] and in the render loop's
    local [newTexture]. *)
Definition worker_texture (w : WorkerPc) : TextureHandle :=
  match w with
  | WAfterPoll texture _ | WBind texture _ | WWait texture _
  | WExecute texture _ | WPush texture _ => texture
  | _ => None
  end.

Definition render_newTexture (r : RenderPc) : TextureHandle :=
  match r with
  | RPopped newTexture _ | RSwapped newTexture _ => newTexture
  | _ => None
  end.

Definition held_textures (s : State) : list Texture :=
  queue_textures (m_RenderToComputeQueue s)
  ++ queue_textures (m_ComputeToRenderQueue s)
  ++ handle_textures (worker_texture (m_ComputeThread s))
  ++ handle_textures (m_CurrentRenderTexture s)
  ++ handle_textures (render_newTexture (renderPc s)).

(** While the message loop runs: the flag is not set, the worker is inside
    its loop, and no handle in a queue or in a local filled by a pop is
    null; after the swap the display texture is the popped one. *)
Definition running (s : State) : Prop :=
  m_Terminate s = false
  /\ handles_non_null (m_RenderToComputeQueue s)
  /\ handles_non_null (m_ComputeToRenderQueue s)
  /\ match m_ComputeThread s with
     | WAfterPoll texture _ | WBind texture _ | WWait texture _
     | WExecute texture _ | WPush texture _ => texture <> None
     | WNotStarted | WExited => False
     | _ => True
     end
  /\ match renderPc s with
     | RPopped newTexture _ => newTexture <> None
     | RSwapped _ _ | RWait _ => m_CurrentRenderTexture s <> None
     | _ => True
     end.

(** No texture is referred to by two handles. *)
Definition distinct (s : State) : Prop :=
  forall x, occ (held_textures s) x <= 1.

(** The tags that travel with the handles agree with the call log, and the
    log has every draw after a wait for the last write and every write
    after a wait for the last draw. *)
Definition synchronised (s : State) : Prop :=
  let log := calls (device s) in
  reads_after_writes log = true
  /\ writes_after_reads log = true
  /\ (forall h n, In (h, n) (m_ComputeToRenderQueue s) -> write_tag log h n)
  /\ (forall h n, In (h, n) (m_RenderToComputeQueue s) -> draw_tag log h n)
  /\ match m_ComputeThread s with
     | WAfterPoll h n | WBind h n | WWait h n => draw_tag log h n
     | WExecute h n =>
         draw_tag log h n
         /\ ((0 <? n)%N = true -> compute_waited log n = true)
     | WPush h n => write_tag log h n
     | _ => True
     end
  /\ match renderPc s with
     | RIdle | RPop =>
         drawn_last log (m_CurrentRenderTexture s) (m_LastRenderTextureUse s)
         /\ ready_to_draw log (m_CurrentRenderTexture s)
     | RPopped h n =>
         write_tag log h n
         /\ drawn_last log (m_CurrentRenderTexture s)
              (m_LastRenderTextureUse s)
     | RSwapped previous n =>
         write_tag log (m_CurrentRenderTexture s) n
         /\ drawn_last log previous (m_LastRenderTextureUse s)
     | RWait n => write_tag log (m_CurrentRenderTexture s) n
     | RBind | RExecute => ready_to_draw log (m_CurrentRenderTexture s)
     | RStore instance =>
         drawn_last log (m_CurrentRenderTexture s) instance
         /\ ready_to_draw log (m_CurrentRenderTexture s)
     end.

(** The textures that the worker has submitted and the graphics queue has
    not yet been told to wait for. *)
Definition in_flight (s : State) : nat :=
  length (m_ComputeToRenderQueue s)
  + match m_ComputeThread s with WPush _ _ => 1 | _ => 0 end
  + match renderPc s with
    | RPopped _ _ | RSwapped _ _ | RWait _ => 1
    | _ => 0
    end.

Definition flow_balanced (s : State) : Prop :=
  length (compute_submissions (calls (device s))) =
  graphics_waits (calls (device s)) + in_flight s.

(** The sequence number of the most recent graphics submission of a log, 0
    when there is none. *)
Definition latest_graphics (log : list Call) : uint64 :=
  match last_graphics_submission log with
  | Some (_, instance) => instance
  | None => 0%N
  end.

(** [m_LastRenderTextureUse] against the log: equal to the latest graphics
    sequence number, except between [executeCommandList] and the assignment
    of its result, where the result is the latest. *)
Definition last_use_tracks (s : State) : Prop :=
  match renderPc s with
  | RStore instance => instance = latest_graphics (calls (device s))
  | _ => m_LastRenderTextureUse s = latest_graphics (calls (device s))
  end.

End PerCall.

(** The object after a successful [Init], seen by the two loops. *)
Definition started_per_call : PerCall.State :=
  PerCall.mkState (m_GraphicsPipeline started) PerCall.WLoopHead
    (m_Terminate started) (m_RenderToComputeQueue started)
    (m_ComputeToRenderQueue started) (m_CurrentRenderTexture started)
    (m_LastRenderTextureUse started) (counter started) PerCall.RIdle
    (device started).

(** * Properties *)

(** ** TextureQueue *)

Module TextureQueueFacts.
Import TextureQueue.

Lemma run_push q texture lastUse ops :
  run q (OpPush texture lastUse :: ops) = run (Push q texture lastUse) ops.
Proof. reflexivity. Qed.

Lemma run_pop_empty o1 o2 ops :
  run [] (OpTryPop o1 o2 :: ops) =
  (fst (run [] ops), mkPop false [] o1 o2 None :: snd (run [] ops)).
Proof. simpl. destruct (run [] ops); reflexivity. Qed.

Lemma run_pop_front texture lastUse rest o1 o2 ops :
  run ((texture, lastUse) :: rest) (OpTryPop o1 o2 :: ops) =
  (fst (run rest ops), mkPop true rest texture lastUse o1 :: snd (run rest ops)).
Proof. simpl. destruct (run rest ops); reflexivity. Qed.

(** Whatever was in the queue, followed by whatever was pushed, is what the
    successful pops handed out followed by what is left. *)
Lemma run_fifo ops : forall q,
  q ++ pushed ops = popped (snd (run q ops)) ++ fst (run q ops).
Proof.
  induction ops as [| [texture lastUse | o1 o2] ops IH]; intro q.
  - simpl. now rewrite app_nil_r.
  - rewrite run_push, <- IH. unfold Push. simpl.
    now rewrite <- app_assoc.
  - destruct q as [| [texture lastUse] rest].
    + rewrite run_pop_empty. simpl. apply (IH []).
    + rewrite run_pop_front. simpl. f_equal. apply IH.
Qed.

End TextureQueueFacts.

(** C2: on one [TextureQueue], for every sequence of [Push] and [TryPop]
    calls, the elements handed out by the successful pops, in call order,
    followed by the elements still queued, are the elements queued at the
    start followed by the pushed ones in push order (FIFO); [Push] always
    appends at the tail; a successful [TryPop] hands out the oldest element
    and removes it; [TryPop] on an empty queue returns false and removes
    nothing. *)
Theorem C2_TextureQueue_fifo :
  (forall ops q,
      q ++ TextureQueue.pushed ops =
      TextureQueue.popped (snd (TextureQueue.run q ops))
      ++ fst (TextureQueue.run q ops))
  /\ (forall q texture lastUse,
         TextureQueue.Push q texture lastUse = q ++ [(texture, lastUse)]
         /\ length (TextureQueue.Push q texture lastUse) = S (length q))
  /\ (forall oldest rest o1 o2,
         let r := TextureQueue.TryPop (oldest :: rest) o1 o2 in
         TextureQueue.returned r = true
         /\ (TextureQueue.outTexture r, TextureQueue.outLastUse r) = oldest
         /\ TextureQueue.queue r = rest)
  /\ (forall o1 o2,
         let r := TextureQueue.TryPop [] o1 o2 in
         TextureQueue.returned r = false /\ TextureQueue.queue r = []).
Proof.
  split; [| split; [| split]].
  - intros ops q. apply TextureQueueFacts.run_fifo.
  - intros q texture lastUse. unfold TextureQueue.Push. split.
    + reflexivity.
    + rewrite length_app. simpl. lia.
  - intros [texture lastUse] rest o1 o2. simpl. auto.
  - intros o1 o2. simpl. auto.
Qed.

(** C10: [TryPop] on an empty [TextureQueue] returns false, leaves the queue
    empty, leaves the caller's [outTexture] and [outLastUse] as they were,
    and destroys no handle. *)
Theorem C10_TryPop_empty_noop :
  forall (outTexture0 : TextureHandle) (outLastUse0 : uint64),
    TextureQueue.TryPop TextureQueue.empty outTexture0 outLastUse0 =
    TextureQueue.mkPop false TextureQueue.empty outTexture0 outLastUse0 None.
Proof. reflexivity. Qed.

(** ** Conservation of the pool *)

Lemma occ_app l1 l2 x : occ (l1 ++ l2) x = occ l1 x + occ l2 x.
Proof. apply count_occ_app. Qed.

Lemma queue_textures_push q texture lastUse :
  queue_textures (TextureQueue.Push q texture lastUse) =
  queue_textures q ++ handle_textures texture.
Proof.
  unfold queue_textures, TextureQueue.Push.
  rewrite flat_map_app. simpl. now rewrite app_nil_r.
Qed.

Lemma queue_textures_cons texture lastUse q :
  queue_textures ((texture, lastUse) :: q) =
  handle_textures texture ++ queue_textures q.
Proof. reflexivity. Qed.

Lemma perm_by_occ (l1 l2 : list Texture) :
  (forall x, occ l1 x = occ l2 x) -> Permutation l1 l2.
Proof. intro H. now apply (Permutation_count_occ Nat.eq_dec). Qed.

Lemma occ_by_perm (l1 l2 : list Texture) x :
  Permutation l1 l2 -> occ l1 x = occ l2 x.
Proof. intro H. now apply (Permutation_count_occ Nat.eq_dec). Qed.

Lemma occ_nil x : occ [] x = 0.
Proof. reflexivity. Qed.

Lemma occ_in (l : list Texture) x : In x l <-> 0 < occ l x.
Proof. apply count_occ_In. Qed.

#[local] Arguments queue_textures : simpl never.
#[local] Arguments occ : simpl never.
#[local] Arguments TextureQueue.Push : simpl never.

Ltac break_state s :=
  destruct s as [sh gp w tm r2c c2r cur lu cnt pc [created graphics compute log]].

Ltac occ_norm :=
  unfold held_textures; cbn;
  repeat rewrite ?queue_textures_push, ?queue_textures_cons, ?occ_app;
  cbn; rewrite ?occ_nil.

Lemma render_step_held s x :
  occ (held_textures (render_step s)) x = occ (held_textures s) x.
Proof.
  break_state s.
  destruct pc as [| newTexture nlu | [previous |] nlu |]; unfold render_step; cbn.
  - destruct gp; cbn; destruct c2r as [| [h l] rest]; occ_norm; lia.
  - occ_norm. lia.
  - occ_norm. lia.
  - occ_norm. lia.
  - destruct cur; occ_norm; lia.
Qed.

Lemma worker_step_held_le s x :
  occ (held_textures (worker_step s)) x <= occ (held_textures s) x.
Proof.
  break_state s.
  destruct w as [| | | texture wlu | texture wlu | |]; unfold worker_step; cbn.
  - lia.
  - destruct tm; occ_norm; lia.
  - destruct tm; cbn; [| destruct r2c as [| [h l] rest]]; occ_norm; lia.
  - destruct tm; cbn; [| destruct (0 <? wlu)%N]; occ_norm; lia.
  - occ_norm. lia.
  - occ_norm. lia.
  - lia.
Qed.

Lemma worker_step_held s x :
  m_Terminate s = false ->
  occ (held_textures (worker_step s)) x = occ (held_textures s) x.
Proof.
  break_state s. cbn. intros ->.
  destruct w as [| | | texture wlu | texture wlu | |]; unfold worker_step; cbn.
  - lia.
  - occ_norm; lia.
  - destruct r2c as [| [h l] rest]; occ_norm; lia.
  - destruct (0 <? wlu)%N; occ_norm; lia.
  - occ_norm. lia.
  - occ_norm. lia.
  - lia.
Qed.

Lemma render_step_Terminate s : m_Terminate (render_step s) = m_Terminate s.
Proof.
  break_state s.
  destruct pc as [| newTexture nlu | [previous |] nlu |];
    unfold render_step; cbn; try reflexivity.
  - destruct gp; cbn; destruct c2r as [| [h l] rest]; reflexivity.
  - destruct cur; reflexivity.
Qed.

Lemma worker_step_Terminate s : m_Terminate (worker_step s) = m_Terminate s.
Proof.
  break_state s.
  destruct w as [| | | texture wlu | texture wlu | |];
    unfold worker_step; cbn; try reflexivity.
  - destruct tm; reflexivity.
  - destruct tm; cbn; [| destruct r2c as [| [h l] rest]]; reflexivity.
  - destruct tm; cbn; [| destruct (0 <? wlu)%N]; reflexivity.
Qed.

Lemma step_Terminate a s : m_Terminate (step a s) = m_Terminate s.
Proof.
  destruct a; cbn.
  - apply render_step_Terminate.
  - apply worker_step_Terminate.
  - break_state s. destruct pc; reflexivity.
Qed.

Lemma run_Terminate schedule : forall s,
  m_Terminate (run schedule s) = m_Terminate s.
Proof.
  induction schedule as [| a schedule IH]; intro s; cbn.
  - reflexivity.
  - now rewrite IH, step_Terminate.
Qed.

Lemma step_held a s x :
  m_Terminate s = false ->
  occ (held_textures (step a s)) x = occ (held_textures s) x.
Proof.
  intro H. destruct a; cbn.
  - apply render_step_held.
  - now apply worker_step_held.
  - break_state s. destruct pc; reflexivity.
Qed.

Lemma run_held schedule : forall s x,
  m_Terminate s = false ->
  occ (held_textures (run schedule s)) x = occ (held_textures s) x.
Proof.
  induction schedule as [| a schedule IH]; intros s x H; cbn.
  - reflexivity.
  - rewrite IH by now rewrite step_Terminate. now apply step_held.
Qed.

Lemma started_Terminate : m_Terminate started = false.
Proof. reflexivity. Qed.

Lemma held_started : held_textures started = pool.
Proof. reflexivity. Qed.



(** ** What the render loop remembers about its last submission *)

Lemma render_step_recorded s :
  last_use_recorded s -> last_use_recorded (render_step s).
Proof.
  break_state s.
  destruct pc as [| newTexture nlu | [previous |] nlu |];
    unfold last_use_recorded, previous_display, render_step; cbn; intro H.
  - destruct gp; cbn; destruct c2r as [| [h l] rest]; cbn;
      first [exact H | discriminate].
  - exact H.
  - discriminate.
  - discriminate.
  - destruct cur as [texture |]; cbn.
    + intros t [= <-]. eexists. split; reflexivity.
    + discriminate.
Qed.

Lemma worker_step_recorded s :
  last_use_recorded s -> last_use_recorded (worker_step s).
Proof.
  break_state s.
  destruct w as [| | | texture wlu | texture wlu | |];
    unfold last_use_recorded, previous_display, worker_step; cbn; intro H;
    try exact H.
  - destruct tm; cbn; exact H.
  - destruct tm; cbn; [| destruct r2c as [| [h l] rest]]; cbn; exact H.
  - destruct tm; cbn; [| destruct (0 <? wlu)%N]; cbn; exact H.
Qed.

Lemma step_recorded a s : last_use_recorded s -> last_use_recorded (step a s).
Proof.
  destruct a; cbn.
  - apply render_step_recorded.
  - apply worker_step_recorded.
  - break_state s. destruct pc; auto.
Qed.

Lemma run_recorded schedule : forall s,
  last_use_recorded s -> last_use_recorded (run schedule s).
Proof.
  induction schedule as [| a schedule IH]; intros s H; cbn.
  - exact H.
  - apply IH. now apply step_recorded.
Qed.

Lemma started_recorded : last_use_recorded started.
Proof. intros texture H. discriminate H. Qed.

(** The push of the previous display texture. *)
Lemma render_step_recycles s previous newTextureLastUse :
  renderPc s = RSwapped (Some previous) newTextureLastUse ->
  m_RenderToComputeQueue (render_step s) =
  m_RenderToComputeQueue s ++ [(Some previous, m_LastRenderTextureUse s)].
Proof.
  break_state s. cbn. intros ->. reflexivity.
Qed.

(** C3: while the message loop runs, whenever the render loop has popped a
    new texture and swapped it in, and the previous display texture was not
    null, the next step pushes that previous texture to the
    render-to-compute queue paired with [m_LastRenderTextureUse], and that
    number is the one returned by the most recent graphics submission, whose
    command list drew that texture. *)
Theorem C3_recycled_with_last_render_use :
  forall schedule previous newTextureLastUse,
    let s := run schedule started in
    renderPc s = RSwapped (Some previous) newTextureLastUse ->
    m_RenderToComputeQueue (render_step s) =
      m_RenderToComputeQueue s ++ [(Some previous, m_LastRenderTextureUse s)]
    /\ exists commands,
         last_graphics_submission (calls (device s)) =
           Some (commands, m_LastRenderTextureUse s)
         /\ drawn_texture commands = Some previous.
Proof.
  intros schedule previous nlu s H. split.
  - now apply render_step_recycles with nlu.
  - apply (run_recorded schedule started started_recorded).
    fold s. unfold previous_display. now rewrite H.
Qed.

Lemma C3_witness :
  let s := run (repeat StepWorker 9 ++ repeat StepRender 6) started in
  renderPc s = RSwapped (Some 0) 2%N
  /\ m_RenderToComputeQueue (render_step s) = [(Some 0, 1%N)]
  /\ last_graphics_submission (calls (device s)) =
       Some ([ClearColorAttachment; SetGraphicsState 0; Draw 4], 1%N).
Proof.
  intro s.
  destruct (C3_recycled_with_last_render_use
              (repeat StepWorker 9 ++ repeat StepRender 6) 0 2%N eq_refl)
    as [Hpush [commands [Hlast Hdrawn]]].
  split; [reflexivity | split].
  - exact Hpush.
  - reflexivity.
Defined.

(** ** The worker's iteration *)

Lemma worker_step_pops s texture lastUse rest :
  m_ComputeThread s = WPoll ->
  m_Terminate s = false ->
  m_RenderToComputeQueue s = (texture, lastUse) :: rest ->
  m_ComputeThread (worker_step s) = WAfterPoll texture lastUse
  /\ m_RenderToComputeQueue (worker_step s) = rest
  /\ device (worker_step s) = device s.
Proof.
  break_state s. cbn. intros -> -> ->. cbn. auto.
Qed.

Lemma worker_step_submits s texture lastUse :
  m_ComputeThread s = WAfterPoll texture lastUse ->
  m_Terminate s = false ->
  let instance := (lastSubmittedCompute (device s) + 1)%N in
  m_ComputeThread (worker_step s) = WPush texture instance
  /\ lastSubmittedCompute (device (worker_step s)) = instance
  /\ calls (device (worker_step s)) =
       ExecuteCommandList Compute (compute_commands texture (counter s))
         instance
       :: (if (lastUse =? 0)%N then []
           else [QueueWaitForCommandList Compute Graphics lastUse])
       ++ GetOrCreateBindingSet m_ComputeBindings texture
       :: calls (device s).
Proof.
  break_state s. cbn. intros -> ->. unfold worker_step. cbn.
  destruct lastUse as [| p]; cbn; auto.
Qed.

Lemma worker_step_pushes s texture lastUse :
  m_ComputeThread s = WPush texture lastUse ->
  m_ComputeToRenderQueue (worker_step s) =
    m_ComputeToRenderQueue s ++ [(texture, lastUse)]
  /\ m_ComputeThread (worker_step s) = WSleep
  /\ device (worker_step s) = device s.
Proof.
  break_state s. cbn. intros ->. cbn. auto.
Qed.

(** C4: in a worker iteration that popped the pair [(texture, lastUse)] from
    the render-to-compute queue and did not see the flag, the calls made up
    to the submission are: the binding set, then, exactly when [lastUse] is
    not zero, the wait of the compute queue for the graphics queue at
    [lastUse], then the submission of the compute command list. *)
Theorem C4_wait_iff_popped_nonzero :
  forall s texture lastUse rest,
    m_ComputeThread s = WPoll ->
    m_Terminate s = false ->
    m_RenderToComputeQueue s = (texture, lastUse) :: rest ->
    m_ComputeThread (worker_step s) = WAfterPoll texture lastUse
    /\ forall s1,
         m_ComputeThread s1 = WAfterPoll texture lastUse ->
         m_Terminate s1 = false ->
         exists instance,
           calls (device (worker_step s1)) =
             ExecuteCommandList Compute
               (compute_commands texture (counter s1)) instance
             :: (if (lastUse =? 0)%N then []
                 else [QueueWaitForCommandList Compute Graphics lastUse])
             ++ GetOrCreateBindingSet m_ComputeBindings texture
             :: calls (device s1).
Proof.
  intros s texture lastUse rest Hpc Hflag Hqueue. split.
  - now destruct (worker_step_pops s texture lastUse rest Hpc Hflag Hqueue).
  - intros s1 Hpc1 Hflag1.
    destruct (worker_step_submits s1 texture lastUse Hpc1 Hflag1) as [_ [_ Hcalls]].
    eexists. exact Hcalls.
Qed.

(** A texture that comes back from the render loop with sequence number 5 is
    waited for; a texture of the start-up pool, with 0, is not. *)
Lemma C4_witness :
  let s :=
    set_RenderToComputeQueue [(Some 0, 5%N); (Some 1, 0%N)]
      (set_ComputeThread WPoll started) in
  let s1 := worker_step s in
  let s2 := worker_step (set_ComputeThread WPoll (worker_step s1)) in
  m_ComputeThread s1 = WAfterPoll (Some 0) 5%N
  /\ calls (device (worker_step s1)) =
       [ExecuteCommandList Compute (compute_commands (Some 0) 0%N) 1%N;
        QueueWaitForCommandList Compute Graphics 5%N;
        GetOrCreateBindingSet m_ComputeBindings (Some 0)]
  /\ calls_since (calls (device s2)) (calls (device (worker_step s2))) =
       [ExecuteCommandList Compute (compute_commands (Some 1) 0%N) 2%N;
        GetOrCreateBindingSet m_ComputeBindings (Some 1)].
Proof.
  intros s s1 s2.
  destruct (C4_wait_iff_popped_nonzero s (Some 0) 5%N [(Some 1, 0%N)]
              eq_refl eq_refl eq_refl) as [Hpc Hcalls].
  destruct (Hcalls s1 Hpc eq_refl) as [instance Heq].
  split; [exact Hpc | split].
  - reflexivity.
  - reflexivity.
Defined.

(** ** Sequence numbers in the compute-to-render queue *)

Lemma render_step_tagged s : compute_tagged s -> compute_tagged (render_step s).
Proof.
  break_state s.
  destruct pc as [| newTexture nlu | [previous |] nlu |];
    unfold compute_tagged, sequence_numbers_nonzero, render_step; cbn;
    intros [Hq Hw]; try (split; assumption).
  - destruct gp; cbn; destruct c2r as [| [h l] rest]; cbn;
      (split; [| assumption]); auto; now inversion Hq.
  - destruct cur; cbn; split; assumption.
Qed.

Lemma worker_step_tagged s : compute_tagged s -> compute_tagged (worker_step s).
Proof.
  break_state s.
  destruct w as [| | | texture wlu | texture wlu | |];
    unfold compute_tagged, sequence_numbers_nonzero, worker_step; cbn;
    intros [Hq Hw]; try (split; [assumption | exact I]).
  - destruct tm; cbn; split; auto.
  - destruct tm; cbn; [| destruct r2c as [| [h l] rest]]; cbn; split; auto.
  - destruct tm; cbn; [| destruct (0 <? wlu)%N]; cbn; split; auto; lia.
  - split; [| exact I]. unfold TextureQueue.Push.
    apply Forall_app. split; [assumption |]. constructor; auto.
Qed.

Lemma step_tagged a s : compute_tagged s -> compute_tagged (step a s).
Proof.
  destruct a; cbn.
  - apply render_step_tagged.
  - apply worker_step_tagged.
  - break_state s. destruct pc; auto.
Qed.

Lemma run_tagged schedule : forall s,
  compute_tagged s -> compute_tagged (run schedule s).
Proof.
  induction schedule as [| a schedule IH]; intros s H; cbn.
  - exact H.
  - apply IH. now apply step_tagged.
Qed.

Lemma started_tagged : compute_tagged started.
Proof. split; [constructor | exact I]. Qed.

(** C5: [Init], when it succeeds, leaves exactly [NumTextures] pairs in the
    render-to-compute queue, each with sequence number 0; the worker's
    submission step keeps the sequence number of the submission it has just
    logged, which is not zero, and its push step appends the texture with
    exactly that number; so, while the message loop runs, every pair in the
    compute-to-render queue has a sequence number that is not zero. *)
Theorem C5_sequence_number_tags :
  (forall created s,
      fst (Init created constructed) = true ->
      s = snd (Init created constructed) ->
      length (m_RenderToComputeQueue s) = NumTextures
      /\ Forall (fun p => snd p = 0%N) (m_RenderToComputeQueue s))
  /\ (forall s texture lastUse,
         m_ComputeThread s = WAfterPoll texture lastUse ->
         m_Terminate s = false ->
         exists returned,
           hd_error (calls (device (worker_step s))) =
             Some (ExecuteCommandList Compute
                     (compute_commands texture (counter s)) returned)
           /\ returned <> 0%N
           /\ m_ComputeThread (worker_step s) = WPush texture returned)
  /\ (forall s texture instance,
         m_ComputeThread s = WPush texture instance ->
         m_ComputeToRenderQueue (worker_step s) =
           m_ComputeToRenderQueue s ++ [(texture, instance)])
  /\ (forall schedule,
         Forall (fun p => snd p <> 0%N)
           (m_ComputeToRenderQueue (run schedule started))).
Proof.
  split; [| split; [| split]].
  - intros created s Hok ->. unfold Init in *.
    destruct created as [[|] [|] [|]]; cbn in Hok; try discriminate.
    cbn. split; [reflexivity | repeat constructor].
  - intros s texture lastUse Hpc Hflag.
    destruct (worker_step_submits s texture lastUse Hpc Hflag)
      as (Hnext & _ & Hcalls).
    exists (lastSubmittedCompute (device s) + 1)%N.
    split; [now rewrite Hcalls | split; [lia | exact Hnext]].
  - intros s texture instance Hpc.
    now destruct (worker_step_pushes s texture instance Hpc).
  - intro schedule.
    now destruct (run_tagged schedule started started_tagged).
Qed.

Lemma C5_witness :
  m_RenderToComputeQueue started = [(Some 0, 0%N); (Some 1, 0%N)]
  /\ Forall (fun p => snd p = 0%N) (m_RenderToComputeQueue started)
  /\ m_ComputeThread (run (repeat StepWorker 3) started) = WPush (Some 0) 1%N
  /\ m_ComputeToRenderQueue (run (repeat StepWorker 4) started) =
       [(Some 0, 1%N)].
Proof.
  destruct C5_sequence_number_tags as [Hinit [Hsubmit [Hpush _]]].
  destruct (Hinit (mkShaders true true true) started eq_refl eq_refl)
    as [_ Hzero].
  destruct (Hsubmit (run (repeat StepWorker 2) started) (Some 0) 0%N
              eq_refl eq_refl) as (returned & Hhead & _ & Hnext).
  assert (E : returned = 1%N) by (vm_compute in Hhead; congruence).
  rewrite E in Hnext.
  pose proof (Hpush (run (repeat StepWorker 3) started) (Some 0) 1%N eq_refl)
    as Hqueue.
  split; [reflexivity | split; [exact Hzero | split]].
  - exact Hnext.
  - exact Hqueue.
Defined.

(** ** Frames with and without a display texture *)

Lemma render_step_running s : running s -> running (render_step s).
Proof.
  break_state s.
  destruct pc as [| newTexture nlu | [previous |] nlu |];
    unfold running, handles_non_null, render_step; cbn;
    intros (Hflag & Hr & Hc & Hw & Hp); try (repeat split; assumption).
  - destruct gp; cbn; destruct c2r as [| [h l] rest]; cbn;
      repeat split; auto; now inversion Hc.
  - repeat split; auto. unfold TextureQueue.Push.
    apply Forall_app. split; [assumption |]. constructor; [discriminate | auto].
  - destruct cur; cbn; repeat split; auto.
Qed.

Lemma worker_step_running s : running s -> running (worker_step s).
Proof.
  break_state s.
  destruct w as [| | | texture wlu | texture wlu | |];
    unfold running, handles_non_null, worker_step; cbn;
    intros (Hflag & Hr & Hc & Hw & Hp); subst tm; cbn;
    try (repeat split; assumption).
  - destruct r2c as [| [h l] rest]; cbn; repeat split; auto;
      now inversion Hr.
  - destruct (0 <? wlu)%N; cbn; repeat split; auto.
  - repeat split; auto. unfold TextureQueue.Push.
    apply Forall_app. split; [assumption |]. constructor; auto.
Qed.

Lemma step_running a s : running s -> running (step a s).
Proof.
  destruct a; cbn.
  - apply render_step_running.
  - apply worker_step_running.
  - break_state s. destruct pc; auto.
Qed.

Lemma run_running schedule : forall s, running s -> running (run schedule s).
Proof.
  induction schedule as [| a schedule IH]; intros s H; cbn.
  - exact H.
  - apply IH. now apply step_running.
Qed.

Lemma started_running : running started.
Proof.
  unfold running, handles_non_null. cbn.
  repeat split; auto; repeat constructor; discriminate.
Qed.

Lemma step_keeps_display a s :
  running s ->
  m_CurrentRenderTexture s <> None ->
  m_CurrentRenderTexture (step a s) <> None.
Proof.
  destruct a; cbn.
  - break_state s.
    destruct pc as [| newTexture nlu | [previous |] nlu |];
      unfold running, render_step; cbn;
      intros (Hflag & Hr & Hc & Hw & Hp) Hcur; auto.
    + destruct gp; cbn; destruct c2r as [| [h l] rest]; cbn; auto.
    + destruct cur; cbn; auto.
  - break_state s.
    destruct w as [| | | texture wlu | texture wlu | |];
      unfold running, worker_step; cbn;
      intros (Hflag & Hr & Hc & Hw & Hp) Hcur; subst tm; cbn; auto.
    + destruct r2c as [| [h l] rest]; cbn; auto.
    + destruct (0 <? wlu)%N; cbn; auto.
  - intros _ Hcur. break_state s. destruct pc; auto.
Qed.

Lemma run_keeps_display schedule : forall s,
  running s ->
  m_CurrentRenderTexture s <> None ->
  m_CurrentRenderTexture (run schedule s) <> None.
Proof.
  induction schedule as [| a schedule IH]; intros s Hrun Hcur; cbn.
  - exact Hcur.
  - apply IH; [now apply step_running | now apply step_keeps_display].
Qed.

Lemma Render_empty_queue s :
  renderPc s = RIdle ->
  m_ComputeToRenderQueue s = [] ->
  renderPc (Render s) = RIdle
  /\ m_CurrentRenderTexture (Render s) = m_CurrentRenderTexture s
  /\ m_RenderToComputeQueue (Render s) = m_RenderToComputeQueue s
  /\ m_ComputeToRenderQueue (Render s) = []
  /\ calls (device (Render s)) =
       ExecuteCommandList Graphics
         (draw_commands (m_CurrentRenderTexture s))
         (lastSubmittedGraphics (device s) + 1)%N
       :: match m_CurrentRenderTexture s with
          | Some texture =>
              [GetOrCreateBindingSet m_DrawBindings (Some texture)]
          | None => []
          end
       ++ pipeline_calls s ++ calls (device s).
Proof.
  break_state s. intros Hpc Hqueue. cbn in Hpc, Hqueue. subst pc c2r.
  destruct gp, cur; repeat split; reflexivity.
Qed.

Lemma render_step_records s :
  renderPc s = RRecord ->
  renderPc (render_step s) = RIdle
  /\ m_CurrentRenderTexture (render_step s) = m_CurrentRenderTexture s
  /\ calls (device (render_step s)) =
       ExecuteCommandList Graphics
         (draw_commands (m_CurrentRenderTexture s))
         (lastSubmittedGraphics (device s) + 1)%N
       :: match m_CurrentRenderTexture s with
          | Some texture =>
              [GetOrCreateBindingSet m_DrawBindings (Some texture)]
          | None => []
          end
       ++ calls (device s).
Proof.
  break_state s. cbn. intros ->. unfold render_step.
  destruct cur; cbn; auto.
Qed.

Lemma Render_ends s : renderPc s = RIdle -> renderPc (Render s) = RIdle.
Proof.
  break_state s. intros Hpc. cbn in Hpc. subst pc.
  destruct gp, c2r as [| [h l] rest], cur; try reflexivity;
    destruct h; reflexivity.
Qed.

(** C6: a frame that finds the compute-to-render queue empty while
    [m_CurrentRenderTexture] is null makes no call but the creation of the
    pipeline when that is null and the submission of a command list that
    holds the clear alone, and leaves the texture null; the recording step of
    any frame submits the clear alone when the texture is null, and the
    binding set, the clear and the draw of the texture when it is not; a
    frame that finds the queue empty keeps the texture it has and draws it;
    while the message loop runs, a texture once received is never replaced
    by null; and every call of [Render] reaches its end whatever the queue
    holds. *)
Theorem C6_clear_only_until_texture_received :
  (forall s,
      renderPc s = RIdle ->
      m_CurrentRenderTexture s = None ->
      m_ComputeToRenderQueue s = [] ->
      calls (device (Render s)) =
        ExecuteCommandList Graphics [ClearColorAttachment]
          (lastSubmittedGraphics (device s) + 1)%N
        :: pipeline_calls s ++ calls (device s)
      /\ m_CurrentRenderTexture (Render s) = None
      /\ renderPc (Render s) = RIdle)
  /\ (forall s,
         renderPc s = RRecord ->
         m_CurrentRenderTexture s = None ->
         calls (device (render_step s)) =
           ExecuteCommandList Graphics [ClearColorAttachment]
             (lastSubmittedGraphics (device s) + 1)%N
           :: calls (device s))
  /\ (forall s texture,
         renderPc s = RRecord ->
         m_CurrentRenderTexture s = Some texture ->
         calls (device (render_step s)) =
           ExecuteCommandList Graphics
             [ClearColorAttachment; SetGraphicsState texture; Draw 4]
             (lastSubmittedGraphics (device s) + 1)%N
           :: GetOrCreateBindingSet m_DrawBindings (Some texture)
           :: calls (device s))
  /\ (forall s texture,
         renderPc s = RIdle ->
         m_CurrentRenderTexture s = Some texture ->
         m_ComputeToRenderQueue s = [] ->
         m_CurrentRenderTexture (Render s) = Some texture
         /\ renderPc (Render s) = RIdle
         /\ calls (device (Render s)) =
              ExecuteCommandList Graphics
                [ClearColorAttachment; SetGraphicsState texture; Draw 4]
                (lastSubmittedGraphics (device s) + 1)%N
              :: GetOrCreateBindingSet m_DrawBindings (Some texture)
              :: pipeline_calls s ++ calls (device s))
  /\ (forall schedule more,
         m_CurrentRenderTexture (run schedule started) <> None ->
         m_CurrentRenderTexture (run more (run schedule started)) <> None)
  /\ (forall s, renderPc s = RIdle -> renderPc (Render s) = RIdle).
Proof.
  repeat apply conj.
  - intros s Hpc Hcur Hqueue.
    destruct (Render_empty_queue s Hpc Hqueue) as (Hend & Hsame & _ & _ & Hcalls).
    rewrite Hcur in *. auto.
  - intros s Hpc Hcur.
    destruct (render_step_records s Hpc) as (_ & _ & Hcalls).
    now rewrite Hcur in Hcalls.
  - intros s texture Hpc Hcur.
    destruct (render_step_records s Hpc) as (_ & _ & Hcalls).
    now rewrite Hcur in Hcalls.
  - intros s texture Hpc Hcur Hqueue.
    destruct (Render_empty_queue s Hpc Hqueue) as (Hend & Hsame & _ & _ & Hcalls).
    rewrite Hcur in *. auto.
  - intros schedule more Hcur.
    apply run_keeps_display; [| exact Hcur].
    apply run_running, started_running.
  - apply Render_ends.
Qed.

Lemma C6_witness :
  calls (device (Render started)) =
    [ExecuteCommandList Graphics [ClearColorAttachment] 1%N;
     CreateGraphicsPipeline]
  /\ m_CurrentRenderTexture (Render started) = None
  /\ m_CurrentRenderTexture
       (run (repeat StepRender 4) (run (repeat StepWorker 4) started))
     <> None
  /\ m_CurrentRenderTexture
       (run (repeat StepRender 9)
          (run (repeat StepRender 4) (run (repeat StepWorker 4) started)))
     <> None.
Proof.
  destruct C6_clear_only_until_texture_received
    as (Hclear & _ & _ & _ & Hkeep & _).
  destruct (Hclear started eq_refl eq_refl eq_refl) as (Hcalls & Hnull & _).
  assert (Hgot : m_CurrentRenderTexture
                   (run (repeat StepWorker 4 ++ repeat StepRender 4) started)
                 <> None) by discriminate.
  split; [exact Hcalls | split; [exact Hnull | split]].
  - exact Hgot.
  - exact (Hkeep (repeat StepWorker 4 ++ repeat StepRender 4)
             (repeat StepRender 9) Hgot).
Defined.

(** ** Shutdown *)

Lemma worker_step_countdown s :
  m_Terminate s = true ->
  steps_to_exit (m_ComputeThread (worker_step s)) =
  pred (steps_to_exit (m_ComputeThread s)).
Proof.
  break_state s. cbn. intros ->.
  destruct w; reflexivity.
Qed.

Lemma worker_step_started s :
  m_ComputeThread s <> WNotStarted ->
  m_ComputeThread (worker_step s) <> WNotStarted.
Proof.
  break_state s. cbn.
  destruct w as [| | | texture wlu | texture wlu | |]; unfold worker_step; cbn;
    try discriminate; auto.
  - destruct tm; discriminate.
  - destruct tm; cbn; [| destruct r2c as [| [h l] rest]]; discriminate.
  - destruct tm; cbn; [| destruct (0 <? wlu)%N]; discriminate.
Qed.

Lemma render_step_ComputeThread s :
  m_ComputeThread (render_step s) = m_ComputeThread s.
Proof.
  break_state s.
  destruct pc as [| newTexture nlu | [previous |] nlu |];
    unfold render_step; cbn; try reflexivity.
  - destruct gp; cbn; destruct c2r as [| [h l] rest]; reflexivity.
  - destruct cur; reflexivity.
Qed.

Lemma exited_when_no_step_left w :
  w <> WNotStarted -> steps_to_exit w = 0 -> w = WExited.
Proof. destruct w; cbn; congruence. Qed.

Lemma steps_to_exit_bound w : steps_to_exit w <= 3.
Proof. destruct w; cbn; lia. Qed.

Lemma run_countdown schedule : forall s,
  m_Terminate s = true ->
  m_ComputeThread s <> WNotStarted ->
  steps_to_exit (m_ComputeThread (run schedule s)) =
    steps_to_exit (m_ComputeThread s) - worker_steps schedule
  /\ m_ComputeThread (run schedule s) <> WNotStarted.
Proof.
  induction schedule as [| a schedule IH]; intros s Hflag Hstarted.
  - cbn. split; [lia | assumption].
  - cbn [run]. destruct a; cbn [step].
    + destruct (IH (render_step s)) as [Hn Hs].
      * now rewrite render_step_Terminate.
      * now rewrite render_step_ComputeThread.
      * rewrite render_step_ComputeThread in Hn. auto.
    + destruct (IH (worker_step s)) as [Hn Hs].
      * now rewrite worker_step_Terminate.
      * now apply worker_step_started.
      * rewrite worker_step_countdown in Hn by assumption.
        split; [| assumption]. rewrite Hn.
        unfold worker_steps. cbn. lia.
    + assert (E : forall s', (match renderPc s with
                              | RIdle => BackBufferResizing s
                              | _ => s
                              end) = s' ->
                             m_Terminate s' = m_Terminate s
                             /\ m_ComputeThread s' = m_ComputeThread s).
      { intros s' <-. break_state s. destruct pc; auto. }
      destruct (E _ eq_refl) as [Ef Ew].
      destruct (IH _ (eq_trans Ef Hflag)) as [Hn Hs].
      * now rewrite Ew.
      * rewrite Ew in Hn. auto.
Qed.

Lemma join_exited fuel s :
  m_ComputeThread s = WExited -> join fuel s = Joined s.
Proof. intro E. destruct fuel; cbn; now rewrite E. Qed.

Lemma join_running fuel s :
  m_ComputeThread s <> WNotStarted ->
  m_ComputeThread s <> WExited ->
  join (S fuel) s = join fuel (worker_step s).
Proof. intros H1 H2. cbn. destruct (m_ComputeThread s); congruence. Qed.

Lemma worker_step_exited s : m_ComputeThread s = WExited -> worker_step s = s.
Proof. break_state s. cbn. now intros ->. Qed.

Lemma WorkerPc_exited_dec (w : WorkerPc) : {w = WExited} + {w <> WExited}.
Proof. destruct w; (now left) || (right; discriminate). Qed.

Lemma join_returns fuel : forall s,
  m_Terminate s = true ->
  m_ComputeThread s <> WNotStarted ->
  steps_to_exit (m_ComputeThread s) <= fuel ->
  exists s',
    join fuel s = Joined s'
    /\ m_ComputeThread s' = WExited
    /\ worker_step s' = s'.
Proof.
  induction fuel as [| fuel IH]; intros s Hflag Hstarted Hfuel.
  - assert (E : m_ComputeThread s = WExited).
    { apply exited_when_no_step_left; [assumption | lia]. }
    exists s. auto using join_exited, worker_step_exited.
  - destruct (WorkerPc_exited_dec (m_ComputeThread s)) as [E | E].
    + exists s. auto using join_exited, worker_step_exited.
    + rewrite join_running by assumption. apply IH.
      * now rewrite worker_step_Terminate.
      * now apply worker_step_started.
      * rewrite worker_step_countdown by assumption. lia.
Qed.




(** ** After the worker has seen the flag *)

Lemma skipn_compose {A} (n m : nat) (l l1 l2 : list A) :
  l1 = skipn n l -> l2 = skipn m l1 -> l2 = skipn (n + m) l.
Proof. intros -> ->. rewrite skipn_skipn. f_equal. lia. Qed.

Lemma render_step_keeps_compute s :
  compute_submissions (calls (device (render_step s))) =
    compute_submissions (calls (device s))
  /\ exists n,
       m_ComputeToRenderQueue (render_step s) =
       skipn n (m_ComputeToRenderQueue s).
Proof.
  break_state s.
  destruct pc as [| newTexture nlu | [previous |] nlu |];
    unfold render_step; cbn.
  - destruct gp; cbn; destruct c2r as [| [h l] rest]; cbn; split;
      try reflexivity;
      first [now exists 1 | now exists 0].
  - split; [reflexivity | now exists 0].
  - split; [reflexivity | now exists 0].
  - split; [reflexivity | now exists 0].
  - destruct cur; cbn; (split; [reflexivity | now exists 0]).
Qed.

Lemma worker_step_stopping s :
  stopping s ->
  stopping (worker_step s)
  /\ device (worker_step s) = device s
  /\ m_ComputeToRenderQueue (worker_step s) = m_ComputeToRenderQueue s
  /\ m_RenderToComputeQueue (worker_step s) = m_RenderToComputeQueue s.
Proof.
  break_state s. unfold stopping. cbn. intros [-> Hw].
  destruct w; try contradiction; cbn; auto.
Qed.

Lemma step_stopping a s :
  stopping s ->
  stopping (step a s)
  /\ compute_submissions (calls (device (step a s))) =
       compute_submissions (calls (device s))
  /\ exists n,
       m_ComputeToRenderQueue (step a s) = skipn n (m_ComputeToRenderQueue s).
Proof.
  intro H. destruct a; cbn [step].
  - destruct (render_step_keeps_compute s) as [Hc Hq].
    split; [| split; assumption].
    destruct H as [Hflag Hw]. split.
    + now rewrite render_step_Terminate.
    + now rewrite render_step_ComputeThread.
  - destruct (worker_step_stopping s H) as (Hs & Hd & Hq & _).
    split; [assumption | split].
    + now rewrite Hd.
    + exists 0. now rewrite Hq.
  - break_state s. destruct pc; (split; [exact H | split]);
      try reflexivity; now exists 0.
Qed.

Lemma run_stopping schedule : forall s,
  stopping s ->
  stopping (run schedule s)
  /\ compute_submissions (calls (device (run schedule s))) =
       compute_submissions (calls (device s))
  /\ exists n,
       m_ComputeToRenderQueue (run schedule s) =
       skipn n (m_ComputeToRenderQueue s).
Proof.
  induction schedule as [| a schedule IH]; intros s H; cbn [run].
  - split; [exact H | split; [reflexivity | now exists 0]].
  - destruct (step_stopping a s H) as (Hs & Hc & n & Hq).
    destruct (IH (step a s) Hs) as (Hs' & Hc' & m & Hq').
    split; [exact Hs' | split].
    + now rewrite Hc'.
    + exists (n + m). now apply skipn_compose with (m_ComputeToRenderQueue (step a s)).
Qed.

Lemma step_held_le a s x :
  occ (held_textures (step a s)) x <= occ (held_textures s) x.
Proof.
  destruct a; cbn [step].
  - now rewrite render_step_held.
  - apply worker_step_held_le.
  - break_state s. destruct pc; apply Nat.le_refl.
Qed.

Lemma run_held_le schedule : forall s x,
  occ (held_textures (run schedule s)) x <= occ (held_textures s) x.
Proof.
  induction schedule as [| a schedule IH]; intros s x; cbn [run].
  - lia.
  - etransitivity; [apply IH | apply step_held_le].
Qed.

Lemma occ_cons t l x : occ (t :: l) x = occ [t] x + occ l x.
Proof. change (t :: l) with ([t] ++ l). apply occ_app. Qed.

Lemma worker_exit_drops s texture lastUse x :
  m_Terminate s = true ->
  m_ComputeThread s = WAfterPoll (Some texture) lastUse ->
  occ (held_textures s) x =
  occ (held_textures (worker_step s)) x + occ [texture] x.
Proof.
  break_state s. cbn. intros -> ->. occ_norm.
  rewrite (occ_cons texture (_ ++ _)), occ_app. lia.
Qed.

Lemma held_set_Terminate v s :
  held_textures (set_Terminate v s) = held_textures s.
Proof. break_state s. reflexivity. Qed.

Lemma occ_pool_le x : occ pool x <= 1.
Proof.
  assert (H : NoDup pool) by (unfold pool; apply seq_NoDup).
  now apply (proj1 (NoDup_count_occ Nat.eq_dec pool)).
Qed.

Lemma occ_single x : occ [x] x = 1.
Proof. unfold occ. cbn. destruct (Nat.eq_dec x x); congruence. Qed.

(** C9: once the flag is set and the worker is at the busy-poll or at the
    check after it, then, whatever the two threads do afterwards, the call
    log gains no submission to the compute queue, the compute-to-render
    queue only loses elements at its front, and after two more worker steps
    the worker has returned.  In particular, when the destructor sets the
    flag while the worker holds a popped texture at that check, the worker's
    next step ends [AsyncThreadProc] without a call on the device and
    without touching either queue, and from then on no handle of the
    program refers to that texture. *)
Theorem C9_no_work_after_flag_seen :
  (forall s schedule,
      m_Terminate s = true ->
      (m_ComputeThread s = WPoll
       \/ exists texture lastUse,
            m_ComputeThread s = WAfterPoll texture lastUse) ->
      let s' := run schedule s in
      compute_submissions (calls (device s')) =
        compute_submissions (calls (device s))
      /\ (exists n,
             m_ComputeToRenderQueue s' = skipn n (m_ComputeToRenderQueue s))
      /\ (2 <= worker_steps schedule -> m_ComputeThread s' = WExited))
  /\ (forall schedule texture lastUse,
         let s := set_Terminate true (run schedule started) in
         m_ComputeThread s = WAfterPoll (Some texture) lastUse ->
         m_ComputeThread (worker_step s) = WExited
         /\ device (worker_step s) = device s
         /\ m_RenderToComputeQueue (worker_step s) = m_RenderToComputeQueue s
         /\ m_ComputeToRenderQueue (worker_step s) = m_ComputeToRenderQueue s
         /\ In texture (held_textures s)
         /\ forall more,
              ~ In texture (held_textures (run more (worker_step s)))).
Proof.
  split.
  - intros s schedule Hflag Hpc s'.
    assert (Hstop : stopping s).
    { split; [assumption |]. destruct Hpc as [-> | (t & l & ->)]; exact I. }
    destruct (run_stopping schedule s Hstop) as (_ & Hc & Hq).
    split; [exact Hc | split; [exact Hq |]].
    intro Hsteps.
    assert (Hstarted : m_ComputeThread s <> WNotStarted).
    { destruct Hpc as [-> | (t & l & ->)]; discriminate. }
    destruct (run_countdown schedule s Hflag Hstarted) as [Hn Hs].
    apply exited_when_no_step_left; [assumption |].
    fold s' in Hn. rewrite Hn.
    destruct Hpc as [-> | (t & l & ->)]; cbn [steps_to_exit]; lia.
  - intros schedule texture lastUse s Hpc.
    assert (Hflag : m_Terminate s = true).
    { unfold s. destruct (run schedule started). reflexivity. }
    assert (Hstop : stopping s) by (split; [assumption | now rewrite Hpc]).
    destruct (worker_step_stopping s Hstop) as (_ & Hd & Hc & Hr).
    assert (Hexit : m_ComputeThread (worker_step s) = WExited).
    { clear - Hflag Hpc. break_state s. cbn in *. now subst. }
    pose proof (worker_exit_drops s texture lastUse texture Hflag Hpc) as Hdrop.
    rewrite occ_single in Hdrop.
    assert (Hpool : occ (held_textures s) texture = occ pool texture).
    { unfold s. rewrite held_set_Terminate.
      rewrite run_held by apply started_Terminate.
      now rewrite held_started. }
    pose proof (occ_pool_le texture) as Hle.
    repeat split; try assumption.
    + apply occ_in. lia.
    + intros more Hin. apply occ_in in Hin.
      pose proof (run_held_le more (worker_step s) texture). lia.
Qed.

Lemma C9_witness :
  let s := set_Terminate true (run (repeat StepWorker 2) started) in
  m_ComputeThread s = WAfterPoll (Some 0) 0%N
  /\ m_ComputeThread (worker_step s) = WExited
  /\ compute_submissions (calls (device (run (repeat StepWorker 5) s))) = []
  /\ ~ In 0 (held_textures (run (repeat StepRender 5) (worker_step s))).
Proof.
  intro s.
  destruct C9_no_work_after_flag_seen as [Hnever Hdrop].
  destruct (Hnever s (repeat StepWorker 5) eq_refl
              (or_intror (ex_intro _ (Some 0) (ex_intro _ 0%N eq_refl))))
    as (Hsub & _ & _).
  destruct (Hdrop (repeat StepWorker 2) 0 0%N eq_refl)
    as (Hexit & _ & _ & _ & _ & Hgone).
  split; [reflexivity | split; [exact Hexit | split]].
  - exact Hsub.
  - exact (Hgone (repeat StepRender 5)).
Defined.

(** ** Failure of Init *)

Lemma run_frame_ComputeThread fuel : forall s,
  m_ComputeThread (run_frame fuel s) = m_ComputeThread s.
Proof.
  induction fuel as [| fuel IH]; intro s; cbn.
  - now destruct (renderPc s).
  - destruct (renderPc s); try reflexivity;
      now rewrite IH, render_step_ComputeThread.
Qed.

(** After a successful [Init], whatever happens while the message loop runs,
    [main] shuts down in order and returns 0. *)
Lemma main_returns_0 schedule fuel :
  3 <= fuel ->
  main true (mkShaders true true true) schedule fuel =
  ([AddRenderPassToBack; RunMessageLoop; RemoveRenderPass; Shutdown;
    DeleteDeviceManager], Return 0%Z).
Proof.
  intro Hfuel. unfold main. cbn [negb].
  change (Init (mkShaders true true true) constructed) with (true, started).
  cbn iota beta.
  assert (Hstarted : m_ComputeThread (set_Terminate true
                       (finish_frame (run schedule started))) <> WNotStarted).
  { assert (E : forall s, m_ComputeThread (set_Terminate true s) =
                          m_ComputeThread s) by (intro s; now break_state s).
    rewrite E. unfold finish_frame. rewrite run_frame_ComputeThread.
    destruct (run_running schedule started started_running)
      as (_ & _ & _ & Hw & _).
    intro Hn. now rewrite Hn in Hw. }
  destruct (join_returns fuel
              (set_Terminate true (finish_frame (run schedule started))))
    as (joined & Hjoin & _).
  - now destruct (finish_frame (run schedule started)).
  - exact Hstarted.
  - pose proof (steps_to_exit_bound
                  (m_ComputeThread (set_Terminate true
                     (finish_frame (run schedule started))))). lia.
  - unfold destructor. now rewrite Hjoin.
Qed.

(** When one of the three shaders is not created, [Init] returns false with
    the thread not started, both queues empty and no texture created; [main]
    then registers no render pass and does not run the message loop; the
    destructor joins a thread that was never started, so [main] does not reach
    its [return]: the process ends in [std::terminate].  The other failure
    path of [main], a device that cannot be created, logs and returns 1. *)
Lemma Init_failure_in_main :
  forall created,
    m_VertexShader created = false
    \/ m_PixelShader created = false
    \/ m_ComputeShader created = false ->
    let failed := snd (Init created constructed) in
    fst (Init created constructed) = false
    /\ m_ComputeThread failed = WNotStarted
    /\ m_RenderToComputeQueue failed = []
    /\ m_ComputeToRenderQueue failed = []
    /\ texturesCreated (device failed) = 0
    /\ (forall schedule fuel,
           main true created schedule fuel = ([], Terminated))
    /\ (forall schedule fuel,
           main false created schedule fuel = ([LogFatal], Return 1%Z)).
Proof.
  intros [vs ps cs] H. cbn in H.
  assert (E : Init (mkShaders vs ps cs) constructed =
              (false, set_shaders (mkShaders vs ps cs) constructed)).
  { unfold Init. cbn.
    destruct H as [-> | [-> | ->]]; destruct_all bool; reflexivity. }
  cbn zeta. rewrite E. cbn.
  repeat split.
  - intros schedule fuel. unfold main. rewrite E. destruct fuel; reflexivity.
Qed.

(** C8: when one of the three shaders is not created, [Init] returns false
    before the worker thread is started and before any texture is created or
    pushed; [main] then neither registers the render pass nor runs the
    message loop; and the process ends with a status that is not 0: the
    destructor's [join] on the thread that was never started throws, [main]
    never reaches its [return 0], the process ends through [std::terminate]
    and [abort], and the status of [abort] is not 0. *)
Theorem C8_Init_failure_exits_nonzero :
  forall created abort_status,
    abort_status <> 0%Z ->
    m_VertexShader created = false
    \/ m_PixelShader created = false
    \/ m_ComputeShader created = false ->
    let failed := snd (Init created constructed) in
    fst (Init created constructed) = false
    /\ m_ComputeThread failed = WNotStarted
    /\ m_RenderToComputeQueue failed = []
    /\ m_ComputeToRenderQueue failed = []
    /\ texturesCreated (device failed) = 0
    /\ forall schedule fuel,
         ~ In AddRenderPassToBack (fst (main true created schedule fuel))
         /\ ~ In RunMessageLoop (fst (main true created schedule fuel))
         /\ snd (main true created schedule fuel) = Terminated
         /\ exists status,
              exit_status abort_status
                (snd (main true created schedule fuel)) = Some status
              /\ status <> 0%Z.
Proof.
  intros created abort_status Habort H.
  destruct (Init_failure_in_main created H)
    as (Hfalse & Hthread & Hr & Hc & Htex & Hmain & _).
  repeat (split; [assumption |]).
  intros schedule fuel. rewrite Hmain. cbn.
  repeat split; try (intros []).
  exists abort_status. split; [reflexivity | assumption].
Qed.

Lemma C8_witness :
  fst (Init (mkShaders false true true) constructed) = false
  /\ m_ComputeThread (snd (Init (mkShaders false true true) constructed))
     = WNotStarted
  /\ exit_status 134
       (snd (main true (mkShaders false true true)
               [StepRender; StepWorker] 3)) = Some 134%Z.
Proof.
  destruct (C8_Init_failure_exits_nonzero (mkShaders false true true) 134%Z)
    as (Hfalse & Hthread & _ & _ & _ & Hmain).
  - discriminate.
  - left. reflexivity.
  - destruct (Hmain [StepRender; StepWorker] 3)
      as (_ & _ & _ & status & Hs & _).
    split; [exact Hfalse | split; [exact Hthread | reflexivity]].
Defined.

(** ** Waits between the two queues *)

#[local] Arguments last_write : simpl never.
#[local] Arguments last_draw : simpl never.
#[local] Arguments graphics_waited : simpl never.
#[local] Arguments compute_waited : simpl never.
#[local] Arguments reads_after_writes : simpl never.
#[local] Arguments writes_after_reads : simpl never.

Lemma refers_to_spec h t : refers_to h t = true <-> h = Some t.
Proof.
  destruct h as [t' |]; cbn.
  - rewrite Nat.eqb_eq. split; congruence.
  - split; discriminate.
Qed.

Lemma refers_to_other h t : h <> Some t -> refers_to h t = false.
Proof.
  intro H. destruct (refers_to h t) eqn:E; [| reflexivity].
  now apply refers_to_spec in E.
Qed.

Lemma last_write_other c log t :
  writes c <> Some t -> last_write (c :: log) t = last_write log t.
Proof.
  intro H. unfold last_write at 1. fold last_write.
  now rewrite refers_to_other.
Qed.

Lemma last_write_here c log t :
  writes c = Some t -> last_write (c :: log) t = Some (instance_of c).
Proof.
  intro H. unfold last_write at 1. fold last_write.
  now rewrite (proj2 (refers_to_spec _ _) H).
Qed.

Lemma last_draw_other c log t :
  draws c <> Some t -> last_draw (c :: log) t = last_draw log t.
Proof.
  intro H. unfold last_draw at 1. fold last_draw.
  now rewrite refers_to_other.
Qed.

Lemma last_draw_here c log t :
  draws c = Some t -> last_draw (c :: log) t = Some (instance_of c).
Proof.
  intro H. unfold last_draw at 1. fold last_draw.
  now rewrite (proj2 (refers_to_spec _ _) H).
Qed.

Lemma graphics_waited_cons c log n :
  graphics_waited log n = true -> graphics_waited (c :: log) n = true.
Proof. unfold graphics_waited. cbn. intros ->. apply orb_true_r. Qed.

Lemma graphics_waited_here log n :
  graphics_waited (QueueWaitForCommandList Graphics Compute n :: log) n = true.
Proof. unfold graphics_waited. cbn. now rewrite N.eqb_refl. Qed.

Lemma compute_waited_cons c log n :
  compute_waited log n = true -> compute_waited (c :: log) n = true.
Proof. unfold compute_waited. cbn. intros ->. apply orb_true_r. Qed.

Lemma compute_waited_here log n :
  compute_waited (QueueWaitForCommandList Compute Graphics n :: log) n = true.
Proof. unfold compute_waited. cbn. now rewrite N.eqb_refl. Qed.

Lemma write_tag_cons c log h n :
  (forall t, h = Some t -> writes c <> Some t) ->
  write_tag log h n -> write_tag (c :: log) h n.
Proof. intros Hc H t E. rewrite last_write_other; auto. Qed.

Lemma draw_tag_cons c log h n :
  (forall t, h = Some t -> draws c <> Some t) ->
  draw_tag log h n -> draw_tag (c :: log) h n.
Proof. intros Hc H t E. rewrite last_draw_other; auto. Qed.

Lemma drawn_last_cons c log h n :
  (forall t, h = Some t -> draws c <> Some t) ->
  drawn_last log h n -> drawn_last (c :: log) h n.
Proof. intros Hc H t E. rewrite last_draw_other; auto. Qed.

Lemma ready_to_draw_cons c log h :
  (forall t, h = Some t -> writes c <> Some t) ->
  ready_to_draw log h -> ready_to_draw (c :: log) h.
Proof.
  intros Hc H t E. destruct (H t E) as (n & Hw & Hg).
  exists n. rewrite last_write_other by auto.
  split; [assumption | now apply graphics_waited_cons].
Qed.

Lemma reads_after_writes_cons c log :
  (forall t, draws c = Some t -> ready_to_draw log (Some t)) ->
  reads_after_writes log = true ->
  reads_after_writes (c :: log) = true.
Proof.
  intros Hc H. unfold reads_after_writes at 1. fold reads_after_writes.
  rewrite H, andb_true_r.
  destruct (draws c) as [t |]; [| reflexivity].
  destruct (Hc t eq_refl t eq_refl) as (n & -> & Hg). exact Hg.
Qed.

Lemma writes_after_reads_cons c log :
  (forall t n, writes c = Some t -> last_draw log t = Some n ->
               compute_waited log n = true) ->
  writes_after_reads log = true ->
  writes_after_reads (c :: log) = true.
Proof.
  intros Hc H. unfold writes_after_reads at 1. fold writes_after_reads.
  rewrite H, andb_true_r.
  destruct (writes c) as [t |]; [| reflexivity].
  destruct (last_draw log t) as [n |] eqn:E; [| reflexivity].
  now apply (Hc t n).
Qed.

Lemma occ_in_queue q t n :
  In (Some t, n) q -> 1 <= occ (queue_textures q) t.
Proof.
  intro H. apply occ_in. unfold queue_textures.
  apply in_flat_map. exists (Some t, n). split; [assumption | now left].
Qed.

Lemma occ_handle t : occ (handle_textures (Some t)) t = 1.
Proof. apply occ_single. Qed.

Lemma graphics_waited_In log n :
  graphics_waited log n = true ->
  In (QueueWaitForCommandList Graphics Compute n) log.
Proof.
  unfold graphics_waited. intro H. apply existsb_exists in H.
  destruct H as (c & Hin & Hc).
  destruct c as [| | [|] [|] i | | |]; try discriminate.
  apply N.eqb_eq in Hc. now subst.
Qed.

Lemma compute_waited_In log n :
  compute_waited log n = true ->
  In (QueueWaitForCommandList Compute Graphics n) log.
Proof.
  unfold compute_waited. intro H. apply existsb_exists in H.
  destruct H as (c & Hin & Hc).
  destruct c as [| | [|] [|] i | | |]; try discriminate.
  apply N.eqb_eq in Hc. now subst.
Qed.

Lemma reads_after_writes_at newer : forall log c older t,
  reads_after_writes log = true ->
  log = newer ++ c :: older ->
  draws c = Some t ->
  exists n, last_write older t = Some n /\ graphics_waited older n = true.
Proof.
  induction newer as [| c' newer IH]; intros log c older t H -> Hd.
  - cbn [app] in H. unfold reads_after_writes in H. fold reads_after_writes in H.
    rewrite Hd in H. apply andb_prop in H. destruct H as [H _].
    destruct (last_write older t) as [n |]; [| discriminate].
    now exists n.
  - cbn [app] in H. unfold reads_after_writes in H. fold reads_after_writes in H.
    apply andb_prop in H. destruct H as [_ H].
    now apply (IH _ c older t H).
Qed.

Lemma writes_after_reads_at newer : forall log c older t n,
  writes_after_reads log = true ->
  log = newer ++ c :: older ->
  writes c = Some t ->
  last_draw older t = Some n ->
  compute_waited older n = true.
Proof.
  induction newer as [| c' newer IH]; intros log c older t n H -> Hw Hd.
  - cbn [app] in H. unfold writes_after_reads in H. fold writes_after_reads in H.
    rewrite Hw, Hd in H. apply andb_prop in H. now destruct H.
  - cbn [app] in H. unfold writes_after_reads in H. fold writes_after_reads in H.
    apply andb_prop in H. destruct H as [_ H].
    now apply (IH _ c older t n H).
Qed.

(** ** The counter of the worker *)

#[local] Arguments counter_values : simpl never.
#[local] Arguments N.pow : simpl never.
#[local] Arguments N.modulo : simpl never.

Lemma counter_values_S n :
  counter_values (S n) = counter_values n ++ [(N.of_nat n mod 2 ^ 32)%N].
Proof. unfold counter_values. rewrite seq_S, map_app. reflexivity. Qed.

Lemma render_step_counted s : dispatch_counted s -> dispatch_counted (render_step s).
Proof.
  break_state s.
  destruct pc as [| newTexture nlu | [previous |] nlu |];
    unfold dispatch_counted, render_step; cbn; try exact (fun H => H).
  - destruct gp; cbn; destruct c2r as [| [h l] rest]; exact (fun H => H).
  - destruct cur; exact (fun H => H).
Qed.

Lemma worker_step_counted s : dispatch_counted s -> dispatch_counted (worker_step s).
Proof.
  break_state s.
  destruct w as [| | | texture wlu | texture wlu | |];
    unfold dispatch_counted, worker_step; cbn; try exact (fun H => H).
  - destruct tm; exact (fun H => H).
  - destruct tm; cbn; [| destruct r2c as [| [h l] rest]]; exact (fun H => H).
  - destruct tm; cbn; [exact (fun H => H) |].
    intros (Hv & Hl & _ & Hc). rewrite Nat.sub_0_r in Hc.
    assert (E : forall waits,
      push_constants
        (ExecuteCommandList Compute (compute_commands texture cnt)
           (compute + 1)%N
         :: waits ++ GetOrCreateBindingSet m_ComputeBindings texture :: log)
      = cnt :: push_constants
                 (waits ++ GetOrCreateBindingSet m_ComputeBindings texture
                  :: log)) by reflexivity.
    destruct (0 <? wlu)%N; cbn;
      (repeat apply conj;
       [ rewrite Hv, counter_values_S, Hc; reflexivity
       | now rewrite Hl
       | lia
       | rewrite Hc; f_equal; f_equal; lia ]).
  - intros (Hv & Hl & Hp & Hc). repeat apply conj; auto; [lia |].
    rewrite Hc, Nat.sub_0_r.
    rewrite N.Div0.add_mod_idemp_l. f_equal. lia.
Qed.

Lemma step_counted a s : dispatch_counted s -> dispatch_counted (step a s).
Proof.
  destruct a; cbn [step].
  - apply render_step_counted.
  - apply worker_step_counted.
  - break_state s. destruct pc; exact (fun H => H).
Qed.

Lemma run_counted schedule : forall s,
  dispatch_counted s -> dispatch_counted (run schedule s).
Proof.
  induction schedule as [| a schedule IH]; intros s H; cbn [run].
  - exact H.
  - apply IH. now apply step_counted.
Qed.

Lemma started_counted : dispatch_counted started.
Proof. unfold dispatch_counted. cbn. repeat apply conj; auto. Qed.

(** X3: while the message loop runs, every compute submission carries one
    push constant, and in submission order these are 0, 1, 2, ... reduced
    modulo 2^32: the submission number k, counted from 0, is given
    [k mod 2^32]. *)
Theorem X3_push_constants_count_iterations :
  forall schedule,
    let log := calls (device (run schedule started)) in
    rev (push_constants log) =
      counter_values (length (compute_submissions log))
    /\ forall k value,
         nth_error (rev (push_constants log)) k = Some value ->
         value = (N.of_nat k mod 2 ^ 32)%N.
Proof.
  intros schedule log.
  destruct (run_counted schedule started started_counted) as (Hv & Hl & _).
  fold log in Hv, Hl. split.
  - now rewrite <- Hl.
  - intros k value Hk. rewrite Hv in Hk. unfold counter_values in Hk.
    rewrite nth_error_map in Hk.
    destruct (nth_error (seq 0 (length (push_constants log))) k) as [j |] eqn:E;
      [| discriminate].
    apply nth_error_nth with (d := 0) in E as E'.
    assert (k < length (seq 0 (length (push_constants log)))).
    { apply nth_error_Some. congruence. }
    rewrite length_seq in H.
    rewrite seq_nth in E' by assumption. cbn in Hk. injection Hk as <-.
    now subst j.
Qed.

Lemma X3_witness :
  let log := calls (device (run (repeat StepWorker 9) started)) in
  rev (push_constants log) = [0%N; 1%N]
  /\ nth_error (rev (push_constants log)) 1 = Some 1%N
  /\ 1%N = (N.of_nat 1 mod 2 ^ 32)%N.
Proof.
  intro log.
  destruct (X3_push_constants_count_iterations (repeat StepWorker 9))
    as [Hall Hnth].
  assert (E : nth_error (rev (push_constants log)) 1 = Some 1%N)
    by (vm_compute; reflexivity).
  split; [exact Hall | split; [exact E | exact (Hnth 1 1%N E)]].
Defined.

(** ** The graphics pipeline *)

Lemma render_step_pipeline s :
  pipeline_ready s ->
  pipeline_ready (render_step s)
  /\ pipeline_creations (calls (device (render_step s)))
     + pipeline_missing (render_step s)
     = pipeline_creations (calls (device s)) + pipeline_missing s.
Proof.
  break_state s.
  destruct pc as [| newTexture nlu | [previous |] nlu |];
    unfold pipeline_ready, pipeline_missing, render_step; cbn; intro H.
  - destruct gp; cbn; destruct c2r as [| [h l] rest]; cbn; split;
      auto; lia.
  - split; [intros _; apply H; discriminate | reflexivity].
  - split; [intros _; apply H; discriminate | reflexivity].
  - split; [intros _; apply H; discriminate | reflexivity].
  - destruct cur; cbn; (split; [intro N; now elim N | reflexivity]).
Qed.

Lemma worker_step_pipeline s :
  pipeline_ready s ->
  pipeline_ready (worker_step s)
  /\ pipeline_creations (calls (device (worker_step s)))
     + pipeline_missing (worker_step s)
     = pipeline_creations (calls (device s)) + pipeline_missing s.
Proof.
  break_state s.
  destruct w as [| | | texture wlu | texture wlu | |];
    unfold pipeline_ready, pipeline_missing, worker_step; cbn; intro H;
    try (split; [exact H | reflexivity]).
  - destruct tm; cbn; split; auto.
  - destruct tm; cbn; [| destruct r2c as [| [h l] rest]]; cbn; split; auto.
  - destruct tm; cbn; [| destruct (0 <? wlu)%N]; cbn; split; auto.
Qed.

Lemma run_pipeline schedule : forall s,
  pipeline_ready s ->
  pipeline_ready (run schedule s)
  /\ pipeline_creations (calls (device (run schedule s)))
     + pipeline_missing (run schedule s)
     <= pipeline_creations (calls (device s)) + pipeline_missing s
        + resizes schedule.
Proof.
  induction schedule as [| a schedule IH]; intros s H; cbn [run].
  - split; [exact H | unfold resizes; cbn; lia].
  - destruct a; cbn [step].
    + destruct (render_step_pipeline s H) as [H' E].
      destruct (IH _ H') as [H'' L]. split; [exact H'' |].
      unfold resizes in *. cbn. lia.
    + destruct (worker_step_pipeline s H) as [H' E].
      destruct (IH _ H') as [H'' L]. split; [exact H'' |].
      unfold resizes in *. cbn. lia.
    + assert (H' : pipeline_ready
                     match renderPc s with
                     | RIdle => BackBufferResizing s
                     | _ => s
                     end
                   /\ pipeline_creations
                        (calls (device match renderPc s with
                                       | RIdle => BackBufferResizing s
                                       | _ => s
                                       end))
                      + pipeline_missing match renderPc s with
                                         | RIdle => BackBufferResizing s
                                         | _ => s
                                         end
                      <= pipeline_creations (calls (device s))
                         + pipeline_missing s + 1).
      { revert H. break_state s. unfold pipeline_ready, pipeline_missing.
        destruct pc; cbn; intro H; split; auto; try lia; try congruence. }
      destruct H' as [H' E].
      destruct (IH _ H') as [H'' L]. split; [exact H'' |].
      unfold resizes in *. cbn [filter length]. lia.
Qed.

(** X5: while the message loop runs, inside a frame the graphics pipeline is
    never null, so no draw is recorded with a null pipeline; and the pipeline
    is created at most once at the start and once more per resize of the
    back buffer. *)
Theorem X5_pipeline_created_lazily :
  forall schedule,
    let s := run schedule started in
    (renderPc s <> RIdle -> m_GraphicsPipeline s = true)
    /\ pipeline_creations (calls (device s)) <= 1 + resizes schedule.
Proof.
  intros schedule s.
  destruct (run_pipeline schedule started) as [H L].
  - intro N. now elim N.
  - split; [exact H |]. fold s in L.
    change (pipeline_creations (calls (device started))) with 0 in L.
    change (pipeline_missing started) with 1 in L. lia.
Qed.

Lemma X5_witness :
  let schedule := [StepRender; StepRender; Resize; StepRender] in
  let s := run schedule started in
  renderPc s = RRecord
  /\ m_GraphicsPipeline s = true
  /\ pipeline_creations (calls (device s)) = 2.
Proof.
  intros schedule s.
  destruct (X5_pipeline_created_lazily schedule) as [Hready _].
  split; [vm_compute; reflexivity | split].
  - apply Hready. vm_compute. discriminate.
  - vm_compute; reflexivity.
Defined.

(** ** The queues never outgrow the pool *)

Lemma length_queue_textures q :
  handles_non_null q -> length (queue_textures q) = length q.
Proof.
  induction 1 as [| [h n] q Hh Hq IH].
  - reflexivity.
  - rewrite queue_textures_cons, length_app, IH.
    destruct h; [reflexivity | now elim Hh].
Qed.

Lemma reachable_length_held schedule :
  length (held_textures (run schedule started)) = NumTextures.
Proof.
  assert (P : Permutation (held_textures (run schedule started)) pool).
  { apply perm_by_occ. intro x.
    rewrite run_held by apply started_Terminate. now rewrite held_started. }
  now rewrite (Permutation_length P).
Qed.

(** X7: while the message loop runs, no pair in either queue holds a null
    handle, and the two queues together never hold more than [NumTextures]
    pairs. *)
Theorem X7_queues_bounded_and_non_null :
  forall schedule,
    let s := run schedule started in
    Forall (fun p => fst p <> None) (m_RenderToComputeQueue s)
    /\ Forall (fun p => fst p <> None) (m_ComputeToRenderQueue s)
    /\ length (m_RenderToComputeQueue s) + length (m_ComputeToRenderQueue s)
       <= NumTextures.
Proof.
  intros schedule s.
  destruct (run_running schedule started started_running)
    as (_ & Hr & Hc & _).
  fold s in Hr, Hc. split; [exact Hr | split; [exact Hc |]].
  rewrite <- (reachable_length_held schedule). fold s.
  unfold held_textures. rewrite !length_app.
  rewrite (length_queue_textures _ Hr), (length_queue_textures _ Hc). lia.
Qed.

(** ** Textures during the destructor *)





(** ** Call sequences on a TextureQueue *)

Lemma queue_run_app ops1 : forall ops2 q,
  fst (TextureQueue.run q (ops1 ++ ops2)) =
    fst (TextureQueue.run (fst (TextureQueue.run q ops1)) ops2)
  /\ snd (TextureQueue.run q (ops1 ++ ops2)) =
       snd (TextureQueue.run q ops1)
       ++ snd (TextureQueue.run (fst (TextureQueue.run q ops1)) ops2).
Proof.
  induction ops1 as [| [texture lastUse | o1 o2] ops1 IH]; intros ops2 q.
  - cbn. auto.
  - cbn [app]. rewrite !TextureQueueFacts.run_push. apply IH.
  - cbn [app]. destruct q as [| [texture lastUse] rest].
    + rewrite !TextureQueueFacts.run_pop_empty. cbn [fst snd].
      destruct (IH ops2 []) as [-> ->]. auto.
    + rewrite !TextureQueueFacts.run_pop_front. cbn [fst snd].
      destruct (IH ops2 rest) as [-> ->]. auto.
Qed.

Lemma queue_run_pushes pairs : forall q,
  TextureQueue.run q (pushes pairs) = (q ++ pairs, []).
Proof.
  induction pairs as [| [texture lastUse] pairs IH]; intro q.
  - cbn. now rewrite app_nil_r.
  - cbn [pushes map fst snd]. rewrite TextureQueueFacts.run_push.
    fold (pushes pairs). rewrite IH. unfold TextureQueue.Push.
    now rewrite <- app_assoc.
Qed.

Lemma queue_run_pops outs : forall q,
  fst (TextureQueue.run q (pops outs)) = skipn (length outs) q
  /\ TextureQueue.popped (snd (TextureQueue.run q (pops outs))) =
       firstn (length outs) q
  /\ failed_pops (snd (TextureQueue.run q (pops outs))) =
       length outs - length q.
Proof.
  induction outs as [| [o1 o2] outs IH]; intro q.
  - cbn. auto.
  - cbn [pops map fst snd length]. fold (pops outs).
    destruct q as [| [texture lastUse] rest].
    + rewrite TextureQueueFacts.run_pop_empty. cbn [fst snd].
      destruct (IH []) as (-> & H2 & H3).
      unfold failed_pops in *. cbn. rewrite H2, H3.
      rewrite skipn_nil, firstn_nil. cbn. repeat split. lia.
    + rewrite TextureQueueFacts.run_pop_front. cbn [fst snd].
      destruct (IH rest) as (-> & H2 & H3).
      unfold failed_pops in *. cbn. rewrite H2, H3. auto.
Qed.

(** X9: on a queue that holds [q], after pushing the pairs [pairs] and then
    calling [TryPop] [n] times, the successful pops have handed out the first
    [n] pairs of [q] followed by [pairs], in that order, the queue holds the
    rest, and exactly the pops beyond the number of queued pairs have
    returned false. *)
Theorem X9_push_then_pop_round_trip :
  forall q pairs outs,
    let r := TextureQueue.run q (pushes pairs ++ pops outs) in
    TextureQueue.popped (snd r) = firstn (length outs) (q ++ pairs)
    /\ fst r = skipn (length outs) (q ++ pairs)
    /\ failed_pops (snd r) = length outs - length (q ++ pairs).
Proof.
  intros q pairs outs r. unfold r.
  destruct (queue_run_app (pushes pairs) (pops outs) q) as [-> ->].
  rewrite queue_run_pushes. cbn [fst snd app].
  destruct (queue_run_pops outs (q ++ pairs)) as (H1 & H2 & H3). auto.
Qed.

Lemma queue_run_conserves ops : forall q x,
  occ (queue_textures q ++ given_textures ops) x =
  occ (queue_textures (fst (TextureQueue.run q ops))
       ++ returned_textures (snd (TextureQueue.run q ops))) x.
Proof.
  induction ops as [| [texture lastUse | o1 o2] ops IH]; intros q x.
  - reflexivity.
  - rewrite TextureQueueFacts.run_push, <- IH.
    cbn [given_textures]. rewrite queue_textures_push, !occ_app. lia.
  - destruct q as [| [texture lastUse] rest].
    + rewrite TextureQueueFacts.run_pop_empty. cbn [fst snd given_textures].
      unfold returned_textures. cbn [flat_map TextureQueue.outTexture
                                       TextureQueue.destroyed].
      fold (returned_textures (snd (TextureQueue.run [] ops))).
      specialize (IH [] x). rewrite !occ_app in *. cbn [handle_textures].
      change (queue_textures []) with (@nil Texture) in *.
      rewrite !occ_nil in *. lia.
    + rewrite TextureQueueFacts.run_pop_front. cbn [fst snd given_textures].
      unfold returned_textures. cbn [flat_map TextureQueue.outTexture
                                       TextureQueue.destroyed].
      fold (returned_textures (snd (TextureQueue.run rest ops))).
      specialize (IH rest x). rewrite queue_textures_cons, !occ_app in *.
      lia.
Qed.

Lemma queue_run_destroys ops : forall q,
  Forall2 (fun r passed =>
             (TextureQueue.returned r = true ->
              TextureQueue.destroyed r = passed)
             /\ (TextureQueue.returned r = false ->
                 TextureQueue.destroyed r = None
                 /\ TextureQueue.outTexture r = passed))
    (snd (TextureQueue.run q ops)) (out_arguments ops).
Proof.
  induction ops as [| [texture lastUse | o1 o2] ops IH]; intro q.
  - constructor.
  - rewrite TextureQueueFacts.run_push. apply IH.
  - cbn [out_arguments]. destruct q as [| [texture lastUse] rest].
    + rewrite TextureQueueFacts.run_pop_empty. cbn [snd].
      constructor; [| apply IH]. cbn. split; [discriminate | auto].
    + rewrite TextureQueueFacts.run_pop_front. cbn [snd].
      constructor; [| apply IH]. cbn. split; [auto | discriminate].
Qed.

(** X10: over any sequence of [Push] and [TryPop] calls on one queue, no
    handle is lost or duplicated: the textures in the queue at the start,
    those pushed and those passed in as [outTexture] are, counted with
    multiplicity, the textures left in the queue, those handed back in
    [outTexture], and those destroyed.  Call by call, a successful [TryPop]
    destroys exactly the handle the caller passed in as [outTexture] (the
    [Swap] puts it into the front element, which [pop] destroys), and a
    failed [TryPop] destroys nothing and leaves [outTexture] as passed. *)
Theorem X10_queue_conserves_handles :
  forall ops q,
    Permutation
      (queue_textures q ++ given_textures ops)
      (queue_textures (fst (TextureQueue.run q ops))
       ++ returned_textures (snd (TextureQueue.run q ops)))
    /\ Forall (fun r => TextureQueue.returned r = false ->
                        TextureQueue.destroyed r = None)
         (snd (TextureQueue.run q ops))
    /\ Forall2 (fun r passed =>
                  (TextureQueue.returned r = true ->
                   TextureQueue.destroyed r = passed)
                  /\ (TextureQueue.returned r = false ->
                      TextureQueue.destroyed r = None
                      /\ TextureQueue.outTexture r = passed))
         (snd (TextureQueue.run q ops)) (out_arguments ops).
Proof.
  intros ops q. split; [| split].
  - apply perm_by_occ. apply queue_run_conserves.
  - revert q. induction ops as [| [texture lastUse | o1 o2] ops IH]; intro q.
    + constructor.
    + rewrite TextureQueueFacts.run_push. apply IH.
    + destruct q as [| [texture lastUse] rest].
      * rewrite TextureQueueFacts.run_pop_empty. constructor; [auto | apply IH].
      * rewrite TextureQueueFacts.run_pop_front.
        constructor; [discriminate | apply IH].
  - apply queue_run_destroys.
Qed.

Lemma X10_witness :
  let ops := [TextureQueue.OpPush (Some 7) 3%N;
              TextureQueue.OpTryPop (Some 9) 0%N;
              TextureQueue.OpTryPop (Some 4) 0%N] in
  map TextureQueue.returned (snd (TextureQueue.run [] ops)) = [true; false]
  /\ map TextureQueue.destroyed (snd (TextureQueue.run [] ops))
     = [Some 9; None]
  /\ map TextureQueue.outTexture (snd (TextureQueue.run [] ops))
     = [Some 7; Some 4]
  /\ Permutation [7; 9; 4] [7; 9; 4].
Proof.
  intro ops.
  destruct (X10_queue_conserves_handles ops []) as (Hperm & _ & Hcalls).
  split; [reflexivity | split; [reflexivity | split; [reflexivity |]]].
  exact Hperm.
Defined.

(** ** One iteration of the worker, one frame of the render loop *)

Lemma worker_spins k : forall s,
  m_ComputeThread s = WPoll ->
  m_Terminate s = false ->
  m_RenderToComputeQueue s = [] ->
  Nat.iter k worker_step s = s.
Proof.
  induction k as [| k IH]; intros s Hw Hflag Hq.
  - reflexivity.
  - change (Nat.iter (S k) worker_step s)
      with (worker_step (Nat.iter k worker_step s)).
    rewrite IH by assumption.
    break_state s. cbn in Hw, Hflag, Hq. now subst.
Qed.

(** X11: one iteration of the worker's loop, started at the loop head with
    the flag not set and a pair at the front of the render-to-compute queue,
    takes that pair, makes the calls: garbage collection, binding set, the
    wait when the pair's number is not 0, the submission with the current
    counter as push constant, the sleep; appends the texture with the
    submission's number to the compute-to-render queue; increments the
    counter modulo 2^32; and is back at the loop head, leaving the display
    texture and [m_LastRenderTextureUse] alone.  While that queue is empty
    the busy-poll changes nothing and makes no call. *)
Theorem X11_worker_iteration :
  (forall s texture lastUse rest,
      m_ComputeThread s = WLoopHead ->
      m_Terminate s = false ->
      m_RenderToComputeQueue s = (texture, lastUse) :: rest ->
      let s' := Nat.iter 5 worker_step s in
      let instance := (lastSubmittedCompute (device s) + 1)%N in
      m_ComputeThread s' = WLoopHead
      /\ m_RenderToComputeQueue s' = rest
      /\ m_ComputeToRenderQueue s' =
           m_ComputeToRenderQueue s ++ [(texture, instance)]
      /\ counter s' = ((counter s + 1) mod 2 ^ 32)%N
      /\ calls (device s') =
           SleepUntil
           :: ExecuteCommandList Compute
                (compute_commands texture (counter s)) instance
           :: (if (lastUse =? 0)%N then []
               else [QueueWaitForCommandList Compute Graphics lastUse])
           ++ GetOrCreateBindingSet m_ComputeBindings texture
           :: RunGarbageCollection
           :: calls (device s)
      /\ m_CurrentRenderTexture s' = m_CurrentRenderTexture s
      /\ m_LastRenderTextureUse s' = m_LastRenderTextureUse s
      /\ renderPc s' = renderPc s)
  /\ (forall s k,
         m_ComputeThread s = WPoll ->
         m_Terminate s = false ->
         m_RenderToComputeQueue s = [] ->
         Nat.iter k worker_step s = s).
Proof.
  split.
  - intros s texture lastUse rest Hw Hflag Hq.
    break_state s. cbn in Hw, Hflag, Hq. subst w tm r2c.
    destruct lastUse; repeat split; reflexivity.
  - intros s k. apply worker_spins.
Qed.

Lemma X11_witness :
  let s' := Nat.iter 5 worker_step started in
  m_RenderToComputeQueue s' = [(Some 1, 0%N)]
  /\ m_ComputeToRenderQueue s' = [(Some 0, 1%N)]
  /\ counter s' = 1%N
  /\ Nat.iter 7 worker_step (Nat.iter 12 worker_step started) =
     Nat.iter 12 worker_step started.
Proof.
  intro s'.
  destruct X11_worker_iteration as [Hiter Hspin].
  destruct (Hiter started (Some 0) 0%N [(Some 1, 0%N)] eq_refl eq_refl eq_refl)
    as (_ & Hr & Hc & Hcnt & _).
  split; [exact Hr | split; [exact Hc | split; [exact Hcnt |]]].
  apply (Hspin (Nat.iter 12 worker_step started) 7);
    vm_compute; reflexivity.
Defined.

(** X12: one call of [Render] that finds a pair at the front of the
    compute-to-render queue takes it, makes its texture the display texture,
    pushes the previous display texture, when there is one, to the
    render-to-compute queue with the previous [m_LastRenderTextureUse],
    makes the calls: pipeline creation when the pipeline is null, the wait
    of the graphics queue for the compute queue at the pair's number, the
    binding set, the submission that clears and draws the new texture; and
    stores the submission's number in [m_LastRenderTextureUse]. *)
Theorem X12_frame_that_pops :
  forall s texture lastUse rest,
    renderPc s = RIdle ->
    m_ComputeToRenderQueue s = (Some texture, lastUse) :: rest ->
    let s' := Render s in
    let instance := (lastSubmittedGraphics (device s) + 1)%N in
    renderPc s' = RIdle
    /\ m_CurrentRenderTexture s' = Some texture
    /\ m_ComputeToRenderQueue s' = rest
    /\ m_RenderToComputeQueue s' =
         m_RenderToComputeQueue s
         ++ match m_CurrentRenderTexture s with
            | Some previous => [(Some previous, m_LastRenderTextureUse s)]
            | None => []
            end
    /\ m_LastRenderTextureUse s' = instance
    /\ m_GraphicsPipeline s' = true
    /\ calls (device s') =
         ExecuteCommandList Graphics
           [ClearColorAttachment; SetGraphicsState texture; Draw 4] instance
         :: GetOrCreateBindingSet m_DrawBindings (Some texture)
         :: QueueWaitForCommandList Graphics Compute lastUse
         :: pipeline_calls s ++ calls (device s).
Proof.
  intros s texture lastUse rest Hpc Hq.
  break_state s. cbn in Hpc, Hq. subst pc c2r.
  destruct gp, cur; repeat split; try reflexivity;
    unfold TextureQueue.Push; cbn; now rewrite ?app_nil_r.
Qed.

Lemma X12_witness :
  let s := run (repeat StepWorker 9 ++ repeat StepRender 4) started in
  m_CurrentRenderTexture s = Some 0
  /\ m_CurrentRenderTexture (Render s) = Some 1
  /\ m_RenderToComputeQueue (Render s) = [(Some 0, 1%N)]
  /\ m_LastRenderTextureUse (Render s) = 2%N.
Proof.
  intro s.
  destruct (X12_frame_that_pops s 1 2%N [])
    as (_ & Hcur & _ & Hr & Hlast & _).
  - vm_compute; reflexivity.
  - vm_compute; reflexivity.
  - split; [vm_compute; reflexivity | split; [exact Hcur | split]].
    + vm_compute in Hr |- *. exact Hr.
    + vm_compute in Hlast |- *. exact Hlast.
Defined.

(** ** main after a successful Init *)

(** X13: when the device and the three shaders are created, then, whatever
    the two threads do while the message loop runs, [main] registers the
    render pass, runs the message loop, removes the render pass, the
    destructor's [join] returns (three worker steps are enough), and [main]
    shuts the device manager down, deletes it and returns 0. *)
Theorem X13_main_returns_0_after_successful_Init :
  forall created schedule fuel,
    m_VertexShader created = true ->
    m_PixelShader created = true ->
    m_ComputeShader created = true ->
    3 <= fuel ->
    fst (Init created constructed) = true
    /\ main true created schedule fuel =
       ([AddRenderPassToBack; RunMessageLoop; RemoveRenderPass; Shutdown;
         DeleteDeviceManager], Return 0%Z).
Proof.
  intros [vs ps cs] schedule fuel Hvs Hps Hcs Hfuel.
  cbn in Hvs, Hps, Hcs. subst vs ps cs.
  split; [reflexivity | now apply main_returns_0].
Qed.

Lemma X13_witness :
  main true (mkShaders true true true)
    (repeat StepWorker 3 ++ [StepRender; Resize]) 3 =
  ([AddRenderPassToBack; RunMessageLoop; RemoveRenderPass; Shutdown;
    DeleteDeviceManager], Return 0%Z).
Proof.
  apply (X13_main_returns_0_after_successful_Init (mkShaders true true true)
           (repeat StepWorker 3 ++ [StepRender; Resize]) 3);
    first [reflexivity | lia].
Defined.

(** ** What each thread leaves alone *)

(** X14: a step of the render thread never changes the worker's place in
    [AsyncThreadProc], its counter, the flag or the compute queue's sequence
    counter; it removes at most the front pair of the compute-to-render
    queue and appends at most one pair to the render-to-compute queue.  A
    step of the worker never changes the render thread's place in [Render],
    the display texture, [m_LastRenderTextureUse], the pipeline, the flag or
    the graphics queue's sequence counter; it removes at most the front pair
    of the render-to-compute queue and appends at most one pair to the
    compute-to-render queue. *)
Theorem X14_threads_share_only_the_queues :
  (forall s,
      let s' := render_step s in
      m_ComputeThread s' = m_ComputeThread s
      /\ counter s' = counter s
      /\ m_Terminate s' = m_Terminate s
      /\ lastSubmittedCompute (device s') = lastSubmittedCompute (device s)
      /\ (exists popped pushed,
             m_ComputeToRenderQueue s = popped ++ m_ComputeToRenderQueue s'
             /\ m_RenderToComputeQueue s' = m_RenderToComputeQueue s ++ pushed
             /\ length popped <= 1 /\ length pushed <= 1))
  /\ (forall s,
         let s' := worker_step s in
         renderPc s' = renderPc s
         /\ m_CurrentRenderTexture s' = m_CurrentRenderTexture s
         /\ m_LastRenderTextureUse s' = m_LastRenderTextureUse s
         /\ m_GraphicsPipeline s' = m_GraphicsPipeline s
         /\ m_Terminate s' = m_Terminate s
         /\ lastSubmittedGraphics (device s') = lastSubmittedGraphics (device s)
         /\ (exists popped pushed,
                m_RenderToComputeQueue s = popped ++ m_RenderToComputeQueue s'
                /\ m_ComputeToRenderQueue s' =
                     m_ComputeToRenderQueue s ++ pushed
                /\ length popped <= 1 /\ length pushed <= 1)).
Proof.
  split; intro s; break_state s.
  - assert (Same : forall q : TextureQueue.t,
               exists popped pushed : TextureQueue.t,
                 c2r = popped ++ c2r /\ q = q ++ pushed
                 /\ length popped <= 1 /\ length pushed <= 1).
    { intro q. exists [], []. rewrite app_nil_r. cbn. auto. }
    destruct pc as [| newTexture nlu | [previous |] nlu |];
      unfold render_step; cbn.
    + destruct gp; cbn; destruct c2r as [| [h l] rest]; cbn;
        repeat split; auto;
        first [ eexists [(h, l)], []; rewrite app_nil_r; cbn; now auto
              | eexists [], []; rewrite app_nil_r; cbn; now auto ].
    + repeat split; auto.
    + repeat split; auto.
      exists [], [(Some previous, lu)]. cbn. auto.
    + repeat split; auto.
    + destruct cur; cbn; repeat split; auto.
  - assert (Same : forall q : TextureQueue.t,
               exists popped pushed : TextureQueue.t,
                 r2c = popped ++ r2c /\ q = q ++ pushed
                 /\ length popped <= 1 /\ length pushed <= 1).
    { intro q. exists [], []. rewrite app_nil_r. cbn. auto. }
    destruct w as [| | | texture wlu | texture wlu | |];
      unfold worker_step; cbn.
    + repeat split; auto.
    + destruct tm; cbn; repeat split; auto.
    + destruct tm; cbn; [repeat split; now auto |].
      destruct r2c as [| [h l] rest]; cbn; repeat split; auto.
      exists [(h, l)], []. rewrite app_nil_r. cbn. auto.
    + destruct tm; cbn; [| destruct (0 <? wlu)%N]; cbn; repeat split; auto.
    + repeat split; auto.
      exists [], [(texture, wlu)]. cbn. auto.
    + repeat split; auto.
    + repeat split; auto.
Qed.

(** ** The two threads, one call per step *)

Ltac break_calls s :=
  destruct s as [gp w tm r2c c2r cur lu cnt pc
                 [created graphics compute log]].

Ltac occ_calls :=
  unfold PerCall.held_textures; cbn;
  repeat rewrite ?queue_textures_push, ?queue_textures_cons, ?occ_app;
  cbn; rewrite ?occ_nil.

Lemma per_call_render_step_Terminate s :
  PerCall.m_Terminate (PerCall.render_step s) = PerCall.m_Terminate s.
Proof.
  break_calls s.
  destruct pc as [| | h n | h n | n | | | i]; cbn; try reflexivity.
  - destruct gp; reflexivity.
  - destruct c2r as [| [h l] rest]; reflexivity.
Qed.

Lemma per_call_worker_step_Terminate s :
  PerCall.m_Terminate (PerCall.worker_step s) = PerCall.m_Terminate s.
Proof.
  break_calls s.
  destruct w as [| | | | h n | h n | h n | h n | h n | |]; cbn;
    try reflexivity.
  destruct tm; cbn; [| destruct r2c as [| [h l] rest]]; reflexivity.
Qed.

Lemma per_call_step_Terminate a s :
  PerCall.m_Terminate (PerCall.step a s) = PerCall.m_Terminate s.
Proof.
  destruct a; cbn [PerCall.step].
  - apply per_call_render_step_Terminate.
  - apply per_call_worker_step_Terminate.
  - break_calls s. destruct pc; reflexivity.
Qed.

Lemma per_call_run_Terminate schedule : forall s,
  PerCall.m_Terminate (PerCall.run schedule s) = PerCall.m_Terminate s.
Proof.
  induction schedule as [| a schedule IH]; intro s; cbn [PerCall.run].
  - reflexivity.
  - now rewrite IH, per_call_step_Terminate.
Qed.

Lemma per_call_step_held a s x :
  PerCall.m_Terminate s = false ->
  occ (PerCall.held_textures (PerCall.step a s)) x =
  occ (PerCall.held_textures s) x.
Proof.
  destruct a; cbn [PerCall.step]; break_calls s; cbn; intros ->.
  - destruct pc as [| | h n | [p |] n | n | | | i]; cbn;
      first [ occ_calls; lia
            | destruct gp; occ_calls; lia
            | destruct c2r as [| [h' l'] rest]; occ_calls; lia
            | destruct cur; occ_calls; lia ].
  - destruct w as [| | | | h n | h n | h n | h n | h n | |]; cbn;
      first [ occ_calls; lia
            | destruct r2c as [| [h' l'] rest]; occ_calls; lia
            | destruct (0 <? n)%N; occ_calls; lia ].
  - destruct pc; reflexivity.
Qed.

Lemma per_call_run_held schedule : forall s x,
  PerCall.m_Terminate s = false ->
  occ (PerCall.held_textures (PerCall.run schedule s)) x =
  occ (PerCall.held_textures s) x.
Proof.
  induction schedule as [| a schedule IH]; intros s x H; cbn [PerCall.run].
  - reflexivity.
  - rewrite IH by now rewrite per_call_step_Terminate.
    now apply per_call_step_held.
Qed.

Lemma per_call_run_app schedule1 : forall schedule2 s,
  PerCall.run (schedule1 ++ schedule2) s =
  PerCall.run schedule2 (PerCall.run schedule1 s).
Proof.
  induction schedule1 as [| a schedule1 IH]; intros schedule2 s; cbn.
  - reflexivity.
  - apply IH.
Qed.

Lemma per_call_reachable_Terminate schedule :
  PerCall.m_Terminate (PerCall.run schedule started_per_call) = false.
Proof. now rewrite per_call_run_Terminate. Qed.

Lemma per_call_reachable_held schedule x :
  occ (PerCall.held_textures (PerCall.run schedule started_per_call)) x =
  occ pool x.
Proof. now rewrite per_call_run_held. Qed.

Lemma per_call_reachable_distinct schedule :
  PerCall.distinct (PerCall.run schedule started_per_call).
Proof.
  intro x. rewrite per_call_reachable_held. apply occ_pool_le.
Qed.

Lemma per_call_reachable_length schedule :
  length (PerCall.held_textures (PerCall.run schedule started_per_call)) =
  NumTextures.
Proof.
  assert (P : Permutation
                (PerCall.held_textures (PerCall.run schedule started_per_call))
                pool)
    by (apply perm_by_occ; intro x; apply per_call_reachable_held).
  now rewrite (Permutation_length P).
Qed.

Lemma per_call_step_running a s :
  PerCall.running s -> PerCall.running (PerCall.step a s).
Proof.
  destruct a; cbn [PerCall.step]; break_calls s;
    unfold PerCall.running, handles_non_null; cbn;
    intros (Hflag & Hr & Hc & Hw & Hp); subst tm.
  - destruct pc as [| | h n | [p |] n | n | | | i]; cbn;
      first
        [ repeat split; assumption
        | destruct gp; cbn; repeat split; assumption
        | destruct c2r as [| [h' l'] rest]; cbn; repeat split; auto;
          now inversion Hc
        | destruct cur; cbn; repeat split; assumption
        | repeat split; auto; unfold TextureQueue.Push;
          apply Forall_app; split; [assumption |];
          constructor; [discriminate | auto] ].
  - destruct w as [| | | | h n | h n | h n | h n | h n | |]; cbn;
      first
        [ repeat split; assumption
        | destruct r2c as [| [h' l'] rest]; cbn; repeat split; auto;
          now inversion Hr
        | destruct (0 <? n)%N; repeat split; assumption
        | repeat split; auto; unfold TextureQueue.Push;
          apply Forall_app; split; [assumption |]; constructor; auto ].
  - destruct pc; cbn; repeat split; assumption.
Qed.

Lemma per_call_reachable_running schedule :
  PerCall.running (PerCall.run schedule started_per_call).
Proof.
  induction schedule as [| a schedule IH] using rev_ind.
  - unfold PerCall.running, handles_non_null. cbn.
    repeat split; auto; repeat constructor; discriminate.
  - rewrite per_call_run_app. cbn [PerCall.run].
    now apply per_call_step_running.
Qed.

Lemma per_call_distinct_r2c_current s n t :
  PerCall.distinct s ->
  In (Some t, n) (PerCall.m_RenderToComputeQueue s) ->
  PerCall.m_CurrentRenderTexture s <> Some t.
Proof.
  intros D Hin E. specialize (D t). break_calls s. cbn in Hin, E. subst cur.
  unfold PerCall.held_textures in D.
  cbn [PerCall.m_RenderToComputeQueue PerCall.m_ComputeToRenderQueue
       PerCall.m_ComputeThread PerCall.m_CurrentRenderTexture
       PerCall.renderPc] in D.
  rewrite !occ_app, occ_handle in D.
  pose proof (occ_in_queue r2c t n Hin). lia.
Qed.

Lemma per_call_distinct_c2r_worker s n t :
  PerCall.distinct s ->
  In (Some t, n) (PerCall.m_ComputeToRenderQueue s) ->
  PerCall.worker_texture (PerCall.m_ComputeThread s) <> Some t.
Proof.
  intros D Hin E. specialize (D t). break_calls s. cbn in Hin, E.
  unfold PerCall.held_textures in D.
  cbn [PerCall.m_RenderToComputeQueue PerCall.m_ComputeToRenderQueue
       PerCall.m_ComputeThread PerCall.m_CurrentRenderTexture
       PerCall.renderPc] in D.
  rewrite E, !occ_app, occ_handle in D.
  pose proof (occ_in_queue c2r t n Hin). lia.
Qed.

Lemma per_call_distinct_worker_current s t :
  PerCall.distinct s ->
  PerCall.worker_texture (PerCall.m_ComputeThread s) = Some t ->
  PerCall.m_CurrentRenderTexture s <> Some t.
Proof.
  intros D Hw E. specialize (D t). break_calls s. cbn in Hw, E. subst cur.
  unfold PerCall.held_textures in D.
  cbn [PerCall.m_RenderToComputeQueue PerCall.m_ComputeToRenderQueue
       PerCall.m_ComputeThread PerCall.m_CurrentRenderTexture
       PerCall.renderPc] in D.
  rewrite Hw, !occ_app, !occ_handle in D. lia.
Qed.

Lemma per_call_distinct_worker_newTexture s t :
  PerCall.distinct s ->
  PerCall.worker_texture (PerCall.m_ComputeThread s) = Some t ->
  PerCall.render_newTexture (PerCall.renderPc s) <> Some t.
Proof.
  intros D Hw E. specialize (D t). break_calls s. cbn in Hw, E.
  unfold PerCall.held_textures in D.
  cbn [PerCall.m_RenderToComputeQueue PerCall.m_ComputeToRenderQueue
       PerCall.m_ComputeThread PerCall.m_CurrentRenderTexture
       PerCall.renderPc] in D.
  rewrite Hw, E, !occ_app, !occ_handle in D. lia.
Qed.

(** A call that neither writes nor draws a texture keeps every tag. *)
Lemma per_call_synchronised_call c gp w tm r2c c2r cur lu cnt pc
  created graphics compute log :
  writes c = None -> draws c = None ->
  PerCall.synchronised
    (PerCall.mkState gp w tm r2c c2r cur lu cnt pc
       (mkDevice created graphics compute log)) ->
  PerCall.synchronised
    (PerCall.mkState gp w tm r2c c2r cur lu cnt pc
       (mkDevice created graphics compute (c :: log))).
Proof.
  intros Hw Hd. unfold PerCall.synchronised. cbn.
  intros (H1 & H2 & H3 & H4 & H5 & H6).
  assert (Nw : forall (h : TextureHandle) t, h = Some t -> writes c <> Some t)
    by (intros; congruence).
  assert (Nd : forall (h : TextureHandle) t, h = Some t -> draws c <> Some t)
    by (intros; congruence).
  repeat apply conj.
  - apply reads_after_writes_cons; [intros; congruence | assumption].
  - apply writes_after_reads_cons; [intros; congruence | assumption].
  - intros h n Hin. apply write_tag_cons; eauto.
  - intros h n Hin. apply draw_tag_cons; eauto.
  - destruct w; try exact I;
      try (apply draw_tag_cons; now eauto);
      try (apply write_tag_cons; now eauto).
    destruct H5 as [H5 H7]. split.
    + apply draw_tag_cons; eauto.
    + intro E. apply compute_waited_cons. auto.
  - destruct pc; try destruct H6 as [H6 H7]; try split;
      first [ apply write_tag_cons; now eauto
            | apply drawn_last_cons; now eauto
            | apply ready_to_draw_cons; now eauto ].
Qed.

Lemma per_call_render_step_synchronised s :
  PerCall.distinct s ->
  PerCall.synchronised s -> PerCall.synchronised (PerCall.render_step s).
Proof.
  intros D H.
  assert (Hr2c : forall t n,
             In (Some t, n) (PerCall.m_RenderToComputeQueue s) ->
             PerCall.m_CurrentRenderTexture s <> Some t)
    by (intros; eapply per_call_distinct_r2c_current; eauto).
  assert (Hwk : forall t,
             PerCall.worker_texture (PerCall.m_ComputeThread s) = Some t ->
             PerCall.m_CurrentRenderTexture s <> Some t)
    by (intros; eapply per_call_distinct_worker_current; eauto).
  clear D. break_calls s. cbn in Hr2c, Hwk.
  destruct pc as [| | h n | previous n | n | | | i]; cbn.
  - (* the pipeline *)
    destruct gp.
    + exact H.
    + apply (per_call_synchronised_call CreateGraphicsPipeline) in H;
        [| reflexivity | reflexivity]. exact H.
  - (* TryPop *)
    revert H. unfold PerCall.synchronised. cbn.
    intros (H1 & H2 & H3 & H4 & H5 & H6 & H7).
    destruct c2r as [| [h n] rest]; cbn; repeat apply conj; auto.
    + intros h' n' Hin. apply H3. now right.
    + apply H3. now left.
  - (* Swap *)
    revert H. unfold PerCall.synchronised. cbn.
    intros (H1 & H2 & H3 & H4 & H5 & H6 & H7). repeat apply conj; auto.
  - (* Push *)
    revert H. unfold PerCall.synchronised. cbn.
    intros (H1 & H2 & H3 & H4 & H5 & H6 & H7). repeat apply conj; auto.
    intros h m Hin. destruct previous as [t |]; cbn in Hin; [| auto].
    unfold TextureQueue.Push in Hin. apply in_app_or in Hin.
    destruct Hin as [Hin | [[= <- <-] | []]]; auto.
    intros t' E. right. now apply H7.
  - (* the wait of the graphics queue *)
    apply (per_call_synchronised_call
             (QueueWaitForCommandList Graphics Compute n)) in H;
      [| reflexivity | reflexivity].
    revert H. unfold PerCall.synchronised, queueWaitForCommandList. cbn.
    intros (H1 & H2 & H3 & H4 & H5 & H6). repeat apply conj; auto.
    intros t E. exists n. split; [now apply H6 |].
    apply graphics_waited_here.
  - (* the binding set *)
    destruct cur as [t |].
    + apply (per_call_synchronised_call
               (GetOrCreateBindingSet m_DrawBindings (Some t))) in H;
        [| reflexivity | reflexivity]. exact H.
    + exact H.
  - (* executeCommandList *)
    revert H. unfold PerCall.synchronised. cbn.
    set (c := ExecuteCommandList Graphics (draw_commands cur) (graphics + 1)%N).
    intros (H1 & H2 & H3 & H4 & H5 & H6).
    assert (Hdraws : draws c = cur) by (destruct cur; reflexivity).
    repeat apply conj.
    + apply reads_after_writes_cons; [| assumption].
      intros t E. rewrite Hdraws in E. now rewrite <- E.
    + apply writes_after_reads_cons; [| assumption]. intros; discriminate.
    + intros h m Hin. apply write_tag_cons; [| auto]. intros; discriminate.
    + intros h m Hin. apply draw_tag_cons; [| auto].
      intros t ->. rewrite Hdraws. eauto.
    + destruct w; try exact I;
        try (apply draw_tag_cons; [| assumption];
             intros t ->; rewrite Hdraws; now apply Hwk);
        try (apply write_tag_cons; [| assumption]; intros; discriminate).
      destruct H5 as [H5 H7]. split.
      * apply draw_tag_cons; [| assumption].
        intros t ->. rewrite Hdraws. now apply Hwk.
      * intro E. apply compute_waited_cons. auto.
    + intros t E. rewrite last_draw_here by now rewrite Hdraws.
      cbn. split; [reflexivity | lia].
    + apply ready_to_draw_cons; [| assumption]. intros; discriminate.
  - (* the assignment *)
    revert H. unfold PerCall.synchronised. cbn.
    intros (H1 & H2 & H3 & H4 & H5 & H6 & H7). repeat apply conj; auto.
Qed.

Lemma per_call_worker_step_synchronised s :
  PerCall.m_Terminate s = false ->
  PerCall.distinct s ->
  PerCall.synchronised s -> PerCall.synchronised (PerCall.worker_step s).
Proof.
  intros Hflag D H.
  assert (Hc2r : forall t n,
             In (Some t, n) (PerCall.m_ComputeToRenderQueue s) ->
             PerCall.worker_texture (PerCall.m_ComputeThread s) <> Some t)
    by (intros; eapply per_call_distinct_c2r_worker; eauto).
  assert (Hcur : forall t,
             PerCall.worker_texture (PerCall.m_ComputeThread s) = Some t ->
             PerCall.m_CurrentRenderTexture s <> Some t)
    by (intros; eapply per_call_distinct_worker_current; eauto).
  assert (Hnew : forall t,
             PerCall.worker_texture (PerCall.m_ComputeThread s) = Some t ->
             PerCall.render_newTexture (PerCall.renderPc s) <> Some t)
    by (intros; eapply per_call_distinct_worker_newTexture; eauto).
  clear D. break_calls s. cbn in Hflag, Hc2r, Hcur, Hnew. subst tm.
  destruct w as [| | | | h n | h n | h n | h n | h n | |]; cbn.
  - exact H.
  - (* the outer test *)
    revert H. unfold PerCall.synchronised. cbn.
    intros (H1 & H2 & H3 & H4 & H5 & H6). repeat apply conj; auto.
  - (* runGarbageCollection *)
    apply (per_call_synchronised_call RunGarbageCollection) in H;
      [| reflexivity | reflexivity].
    revert H. unfold PerCall.synchronised. cbn.
    intros (H1 & H2 & H3 & H4 & H5 & H6). repeat apply conj; auto.
  - (* TryPop *)
    revert H. unfold PerCall.synchronised. cbn.
    intros (H1 & H2 & H3 & H4 & H5 & H6).
    destruct r2c as [| [h n] rest]; cbn; repeat apply conj; auto.
    + intros h' n' Hin. apply H4. now right.
    + apply H4. now left.
  - (* the test after the poll *)
    revert H. unfold PerCall.synchronised. cbn.
    intros (H1 & H2 & H3 & H4 & H5 & H6). repeat apply conj; auto.
  - (* the binding set *)
    apply (per_call_synchronised_call
             (GetOrCreateBindingSet m_ComputeBindings h)) in H;
      [| reflexivity | reflexivity].
    revert H. unfold PerCall.synchronised. cbn.
    intros (H1 & H2 & H3 & H4 & H5 & H6). repeat apply conj; auto.
  - (* the wait of the compute queue *)
    destruct (0 <? n)%N eqn:E.
    + apply (per_call_synchronised_call
               (QueueWaitForCommandList Compute Graphics n)) in H;
        [| reflexivity | reflexivity].
      revert H. unfold PerCall.synchronised, queueWaitForCommandList. cbn.
      intros (H1 & H2 & H3 & H4 & H5 & H6). repeat apply conj; auto.
      intros _. apply compute_waited_here.
    + revert H. unfold PerCall.synchronised. cbn.
      intros (H1 & H2 & H3 & H4 & H5 & H6). repeat apply conj; auto.
      rewrite E. discriminate.
  - (* executeCommandList *)
    revert H. unfold PerCall.synchronised. cbn.
    set (c := ExecuteCommandList Compute (compute_commands h cnt)
                (compute + 1)%N).
    intros (H1 & H2 & H3 & H4 & (H5 & Hwaited) & H6).
    assert (Hwrites : writes c = h) by reflexivity.
    repeat apply conj.
    + apply reads_after_writes_cons; [| assumption]. intros; discriminate.
    + apply writes_after_reads_cons; [| assumption].
      intros t m Ew Ed. rewrite Hwrites in Ew.
      destruct (H5 t Ew) as [[E _] | [E Hn]]; [congruence |].
      assert (m = n) by congruence. subst m.
      apply Hwaited. apply N.ltb_lt. lia.
    + intros h' m Hin. apply write_tag_cons; [| auto].
      intros t ->. rewrite Hwrites. intro N. exact (Hc2r t m Hin N).
    + intros h' m Hin. apply draw_tag_cons; [| auto]. intros; discriminate.
    + intros t E. rewrite last_write_here by now rewrite Hwrites.
      reflexivity.
    + assert (Nw : forall t, cur = Some t -> writes c <> Some t).
      { intros t E N. rewrite Hwrites in N. now apply (Hcur t N). }
      assert (Nd : forall (h' : TextureHandle) t,
                 h' = Some t -> draws c <> Some t)
        by (intros; discriminate).
      destruct pc as [| | h' m | h' m | m | | | i]; cbn in Hnew;
        try destruct H6 as [H6 H7]; try split;
        first [ apply drawn_last_cons; now eauto
              | apply ready_to_draw_cons; now eauto
              | apply write_tag_cons; now eauto
              | idtac ].
      apply write_tag_cons; [| assumption].
      intros t -> N. rewrite Hwrites in N. now apply (Hnew t N).
  - (* Push *)
    revert H. unfold PerCall.synchronised. cbn.
    intros (H1 & H2 & H3 & H4 & H5 & H6). repeat apply conj; auto.
    intros h' m Hin. unfold TextureQueue.Push in Hin.
    apply in_app_or in Hin. destruct Hin as [Hin | [[= <- <-] | []]]; auto.
  - (* the sleep *)
    apply (per_call_synchronised_call SleepUntil) in H;
      [| reflexivity | reflexivity].
    revert H. unfold PerCall.synchronised. cbn.
    intros (H1 & H2 & H3 & H4 & H5 & H6). repeat apply conj; auto.
  - exact H.
Qed.

Lemma per_call_step_synchronised a s :
  PerCall.m_Terminate s = false ->
  PerCall.distinct s ->
  PerCall.synchronised s -> PerCall.synchronised (PerCall.step a s).
Proof.
  intros Hflag D H. destruct a; cbn [PerCall.step].
  - now apply per_call_render_step_synchronised.
  - now apply per_call_worker_step_synchronised.
  - break_calls s. destruct pc; exact H.
Qed.

Lemma per_call_started_synchronised : PerCall.synchronised started_per_call.
Proof.
  unfold PerCall.synchronised. cbn. repeat apply conj; try reflexivity.
  - intros h n [].
  - intros h n [[= <- <-] | [[= <- <-] | []]] t [= <-]; now left.
  - intros t [=].
  - intros t [=].
Qed.

Lemma per_call_reachable_synchronised schedule :
  PerCall.synchronised (PerCall.run schedule started_per_call).
Proof.
  induction schedule as [| a schedule IH] using rev_ind.
  - apply per_call_started_synchronised.
  - rewrite per_call_run_app. cbn [PerCall.run].
    apply per_call_step_synchronised.
    + apply per_call_reachable_Terminate.
    + apply per_call_reachable_distinct.
    + exact IH.
Qed.

(** X1: while the message loop runs, whatever the interleaving of the calls
    of the two threads, every submission to the graphics queue that draws a
    texture comes later in the call log than a compute submission that wrote
    that texture, and later than a wait of the graphics queue for the
    compute queue at the sequence number of the most recent such compute
    submission. *)
Theorem X1_draw_waits_for_last_write :
  forall schedule newer commands instance older t,
    calls (PerCall.device (PerCall.run schedule started_per_call)) =
      newer ++ ExecuteCommandList Graphics commands instance :: older ->
    drawn_texture commands = Some t ->
    exists n,
      last_write older t = Some n
      /\ In (QueueWaitForCommandList Graphics Compute n) older.
Proof.
  intros schedule newer commands instance older t Hlog Hdraw.
  destruct (per_call_reachable_synchronised schedule) as (H & _).
  destruct (reads_after_writes_at newer _
              (ExecuteCommandList Graphics commands instance) older t
              H Hlog Hdraw) as (n & Hw & Hg).
  exists n. split; [assumption | now apply graphics_waited_In].
Qed.

(** The second frame draws texture 1 after the worker, between the [Push]
    and the queue wait of that frame, has already taken back texture 0 and
    submitted its next dispatch. *)
Lemma X1_witness :
  let schedule :=
    repeat StepWorker 18 ++ repeat StepRender 12 ++ repeat StepWorker 7
    ++ repeat StepRender 3 in
  let older :=
    tl (calls (PerCall.device (PerCall.run schedule started_per_call))) in
  hd_error (calls (PerCall.device (PerCall.run schedule started_per_call))) =
    Some (ExecuteCommandList Graphics
            [ClearColorAttachment; SetGraphicsState 1; Draw 4] 2%N)
  /\ exists n,
       last_write older 1 = Some n
       /\ In (QueueWaitForCommandList Graphics Compute n) older.
Proof.
  intros schedule older. split; [vm_compute; reflexivity |].
  apply (X1_draw_waits_for_last_write schedule []
           [ClearColorAttachment; SetGraphicsState 1; Draw 4] 2%N older 1).
  - vm_compute; reflexivity.
  - reflexivity.
Defined.

(** X2: while the message loop runs, whatever the interleaving of the calls
    of the two threads, every submission to the compute queue that writes a
    texture which an earlier graphics submission drew comes later in the
    call log than a wait of the compute queue for the graphics queue at the
    sequence number of the most recent graphics submission that drew it.
    (The device never hands out sequence number 0.) *)
Theorem X2_write_waits_for_last_draw :
  forall schedule newer commands instance older t n,
    calls (PerCall.device (PerCall.run schedule started_per_call)) =
      newer ++ ExecuteCommandList Compute commands instance :: older ->
    written_texture commands = Some t ->
    last_draw older t = Some n ->
    In (QueueWaitForCommandList Compute Graphics n) older.
Proof.
  intros schedule newer commands instance older t n Hlog Hwrite Hdraw.
  destruct (per_call_reachable_synchronised schedule) as (_ & H & _).
  apply compute_waited_In.
  exact (writes_after_reads_at newer _
           (ExecuteCommandList Compute commands instance) older t n
           H Hlog Hwrite Hdraw).
Qed.

(** The worker takes texture 0 back and submits its next dispatch while the
    render thread is between the [Push] and the queue wait of its second
    frame. *)
Lemma X2_witness :
  let schedule :=
    repeat StepWorker 18 ++ repeat StepRender 12 ++ repeat StepWorker 7 in
  let s := PerCall.run schedule started_per_call in
  let older := tl (calls (PerCall.device s)) in
  PerCall.renderPc s = PerCall.RWait 2%N
  /\ hd_error (calls (PerCall.device s)) =
       Some (ExecuteCommandList Compute (compute_commands (Some 0) 2%N) 3%N)
  /\ last_draw older 0 = Some 1%N
  /\ In (QueueWaitForCommandList Compute Graphics 1%N) older.
Proof.
  intros schedule s older.
  split; [vm_compute; reflexivity |].
  split; [vm_compute; reflexivity | split; [vm_compute; reflexivity |]].
  apply (X2_write_waits_for_last_draw schedule []
           (compute_commands (Some 0) 2%N) 3%N older 0 1%N).
  - vm_compute; reflexivity.
  - reflexivity.
  - vm_compute; reflexivity.
Defined.

(** ** The render loop's bookkeeping *)

Lemma per_call_step_tracks a s :
  PerCall.last_use_tracks s -> PerCall.last_use_tracks (PerCall.step a s).
Proof.
  destruct a; cbn [PerCall.step]; break_calls s;
    unfold PerCall.last_use_tracks, PerCall.latest_graphics; cbn.
  - destruct pc as [| | h n | h n | n | | | i]; cbn;
      first [ exact (fun H => H)
            | destruct gp; exact (fun H => H)
            | destruct c2r as [| [h' l'] rest]; exact (fun H => H)
            | destruct cur; exact (fun H => H)
            | intros _; reflexivity ].
  - destruct w as [| | | | h n | h n | h n | h n | h n | |]; cbn;
      first [ exact (fun H => H)
            | destruct tm; cbn; [| destruct r2c as [| [h' l'] rest]];
              exact (fun H => H)
            | destruct (0 <? n)%N; exact (fun H => H) ].
  - destruct pc; exact (fun H => H).
Qed.

Lemma per_call_run_tracks schedule : forall s,
  PerCall.last_use_tracks s ->
  PerCall.last_use_tracks (PerCall.run schedule s).
Proof.
  induction schedule as [| a schedule IH]; intros s H; cbn [PerCall.run].
  - exact H.
  - apply IH. now apply per_call_step_tracks.
Qed.

(** X4: while the message loop runs, whatever the interleaving,
    [m_LastRenderTextureUse] is the sequence number of the most recent
    submission to the graphics queue, and 0 as long as there was none, at
    every point of either thread except between [executeCommandList] and
    the assignment of its result, where the value about to be assigned is
    that number; no step of the worker and no resize changes the member. *)
Theorem X4_last_use_is_latest_graphics_submission :
  (forall schedule,
      let s := PerCall.run schedule started_per_call in
      match PerCall.renderPc s with
      | PerCall.RStore instance =>
          instance = PerCall.latest_graphics (calls (PerCall.device s))
      | _ =>
          PerCall.m_LastRenderTextureUse s =
          PerCall.latest_graphics (calls (PerCall.device s))
      end)
  /\ (forall s,
         PerCall.m_LastRenderTextureUse (PerCall.worker_step s) =
         PerCall.m_LastRenderTextureUse s
         /\ PerCall.m_LastRenderTextureUse (PerCall.resize s) =
            PerCall.m_LastRenderTextureUse s).
Proof.
  split.
  - intro schedule. apply (per_call_run_tracks schedule started_per_call).
    reflexivity.
  - intro s. break_calls s. split.
    + destruct w as [| | | | h n | h n | h n | h n | h n | |]; cbn;
        try reflexivity.
      destruct tm; cbn; [| destruct r2c as [| [h' l'] rest]]; reflexivity.
    + destruct pc; reflexivity.
Qed.

(** ** How far the worker runs ahead *)

Lemma per_call_step_balanced a s :
  PerCall.flow_balanced s -> PerCall.flow_balanced (PerCall.step a s).
Proof.
  unfold PerCall.flow_balanced, PerCall.in_flight, graphics_waits,
    compute_submissions.
  destruct a; cbn [PerCall.step]; break_calls s.
  - destruct pc as [| | h n | h n | n | | | i];
      [ destruct gp | destruct c2r as [| [h' l'] rest] | | destruct h | |
        destruct cur | | ];
      cbn; unfold TextureQueue.Push; cbn; lia.
  - destruct w as [| | | | h n | h n | h n | h n | h n | |];
      [ | destruct tm | |
        destruct tm; [| destruct r2c as [| [h' l'] rest]] |
        destruct tm | | | | | | ];
      cbn;
      try match goal with
          | |- context [(0 <? ?m)%N] => destruct (0 <? m)%N
          end;
      unfold TextureQueue.Push; rewrite ?length_app; cbn; lia.
  - destruct pc; exact (fun H => H).
Qed.

Lemma per_call_run_balanced schedule : forall s,
  PerCall.flow_balanced s -> PerCall.flow_balanced (PerCall.run schedule s).
Proof.
  induction schedule as [| a schedule IH]; intros s H; cbn [PerCall.run].
  - exact H.
  - apply IH. now apply per_call_step_balanced.
Qed.

Lemma per_call_in_flight_held s :
  PerCall.running s ->
  PerCall.in_flight s <= length (PerCall.held_textures s).
Proof.
  break_calls s.
  unfold PerCall.running, PerCall.in_flight, PerCall.held_textures. cbn.
  intros (_ & _ & Hc & Hw & Hp).
  rewrite !length_app, (length_queue_textures c2r Hc).
  assert (L : forall h : TextureHandle,
             h <> None -> length (handle_textures h) = 1).
  { intros [t |] N; [reflexivity | now elim N]. }
  destruct w as [| | | | h n | h n | h n | h n | h n | |];
    destruct pc as [| | h' m | h' m | m | | | i]; cbn;
    rewrite ?(L h), ?(L h'), ?(L cur) by assumption; lia.
Qed.

(** X6: while the message loop runs, whatever the interleaving of the calls
    of the two threads, the graphics queue has been told to wait for at most
    as many compute submissions as were made, and the worker is never more
    than [NumTextures] submissions ahead of those waits: the difference is
    exactly the number of textures in the compute-to-render queue, about to
    be pushed to it, or popped from it in the current frame before the queue
    wait. *)
Theorem X6_worker_at_most_pool_size_ahead :
  forall schedule,
    let s := PerCall.run schedule started_per_call in
    let log := calls (PerCall.device s) in
    length (compute_submissions log) = graphics_waits log + PerCall.in_flight s
    /\ graphics_waits log <= length (compute_submissions log)
    /\ length (compute_submissions log) <= graphics_waits log + NumTextures.
Proof.
  intros schedule s log.
  assert (E : length (compute_submissions log) =
              graphics_waits log + PerCall.in_flight s).
  { apply (per_call_run_balanced schedule started_per_call). reflexivity. }
  assert (B : PerCall.in_flight s <= NumTextures).
  { rewrite <- (per_call_reachable_length schedule).
    apply per_call_in_flight_held. apply per_call_reachable_running. }
  repeat split; [exact E | lia | lia].
Qed.
